(** * Cloudim account backend (backend-auth-simple.js): model and properties

    The server keeps every account in one JSON file, users.json, and each
    route handler reads the whole file, changes the parsed array and writes
    the whole file back.  The model follows the handlers line by line:

    - a JSON document is a [json] value, a JavaScript object is a finite map
      from property names to values ([gmap string json]); a missing property
      reads as [None], JavaScript's [undefined];
    - numbers are the integers among the IEEE doubles, with [NaN] as an
      extra result of [parseInt] and of arithmetic.  Every integer within
      2^53 in absolute value is a double ([exact]); a sum beyond is rounded
      to the nearest double ([round_double]).  Where JavaScript would print
      an exponent, round what [parseInt] reads or reach an infinity,
      [parseInt] and [js_add] give no result ([None]) and the upload is
      outside the model; fractions are outside the model as well;
    - a string is the sequence of the bytes of its UTF-8 encoding;
    - one request is handled at a time (the interleaving of two handlers
      between their awaits is not modelled);
    - bcrypt and jsonwebtoken are libraries of their own: the model takes
      their functions as parameters ([Bcrypt], [Jwt]) and states what it
      needs of them as explicit contracts ([bcrypt_contract],
      [jwt_contract]);
    - the clock, the salt bcrypt draws and the outcome of a file write are
      inputs of a request ([env]).

    The definitions come first: the JavaScript operators, the file, the
    handlers, the vocabulary of the invariants, two stand-ins for the
    libraries and a small example to run the handlers on.  The properties
    follow. *)

From stdpp Require Import base option list gmap strings pretty countable.
From Stdlib Require Import ZArith Lia Ascii.

Set Warnings "-register-all".
Local Open Scope Z_scope.

(** ** JSON values and the JavaScript operators the handlers use *)

Inductive json : Type :=
| JNull
| JBool (b : bool)
| JNum (n : Z)
| JStr (s : string)
| JArr (l : list json)
| JObj (o : gmap string json).

(** A JavaScript object: the parsed request body, an account. *)
Abbreviation obj := (gmap string json).

(** A number as the handlers compute it: an integer or NaN. *)
Inductive num : Type :=
| Fin (z : Z)
| NaN.

(** [!v] is [negb (truthy v)]: undefined, null, false, 0 and the empty
    string are falsy, everything else (arrays and objects too) is truthy. *)
Definition truthy (v : option json) : bool :=
  match v with
  | None | Some JNull => false
  | Some (JBool b) => b
  | Some (JNum n) => negb (n =? 0)
  | Some (JStr s) => negb (String.eqb s "")
  | Some (JArr _) | Some (JObj _) => true
  end.

(** [a === b].  Primitives compare by value.  Arrays and objects compare by
    reference: the two sides of every [===] in the handlers come from two
    different calls of [JSON.parse] (the file, the request body, the token),
    so two objects are never the same reference. *)
Definition strict_eq (a b : option json) : bool :=
  match a, b with
  | None, None => true
  | Some JNull, Some JNull => true
  | Some (JBool x), Some (JBool y) => Bool.eqb x y
  | Some (JNum x), Some (JNum y) => x =? y
  | Some (JStr x), Some (JStr y) => String.eqb x y
  | _, _ => false
  end.

(** *** parseInt *)

(** The integers that a double holds without rounding: every integer from
    -2^53 to 2^53 is a double, and a sum of two doubles that lies in this
    range is computed without rounding.  Within it a number prints as its
    plain decimal digits (exponents start at 10^21). *)
Definition exact (n : Z) : bool := (- 2 ^ 53 <=? n) && (n <=? 2 ^ 53).

(** The white space that parseInt skips (StrWhiteSpaceChar), in UTF-8.  One
    byte: TAB, LF, VT, FF, CR and the space. *)
Definition is_blank (c : ascii) : bool :=
  let n := Z.of_nat (nat_of_ascii c) in
  ((9 <=? n) && (n <=? 13)) || (n =? 32).

(** Two bytes: U+00A0, the no-break space. *)
Definition is_blank2 (c1 c2 : ascii) : bool :=
  (Z.of_nat (nat_of_ascii c1) =? 194) && (Z.of_nat (nat_of_ascii c2) =? 160).

(** Three bytes: U+1680, U+2000 to U+200A, U+2028, U+2029, U+202F, U+205F,
    U+3000 and U+FEFF. *)
Definition is_blank3 (c1 c2 c3 : ascii) : bool :=
  let n1 := Z.of_nat (nat_of_ascii c1) in
  let n2 := Z.of_nat (nat_of_ascii c2) in
  let n3 := Z.of_nat (nat_of_ascii c3) in
  ((n1 =? 225) && ((n2 =? 154) && (n3 =? 128)))
  || ((n1 =? 226) &&
      (((n2 =? 128) &&
        (((128 <=? n3) && (n3 <=? 138)) || (n3 =? 168) || (n3 =? 169) || (n3 =? 175)))
       || ((n2 =? 129) && (n3 =? 159))))
  || ((n1 =? 227) && ((n2 =? 128) && (n3 =? 128)))
  || ((n1 =? 239) && ((n2 =? 187) && (n3 =? 191))).

Fixpoint skip_blanks (s : string) : string :=
  match s with
  | String c1 s1 =>
      if is_blank c1 then skip_blanks s1
      else
        match s1 with
        | String c2 s2 =>
            if is_blank2 c1 c2 then skip_blanks s2
            else
              match s2 with
              | String c3 s3 => if is_blank3 c1 c2 c3 then skip_blanks s3 else s
              | EmptyString => s
              end
        | EmptyString => s
        end
  | EmptyString => s
  end.

(** The value of a digit in radix up to 36. *)
Definition digit_value (c : ascii) : option Z :=
  let n := Z.of_nat (nat_of_ascii c) in
  if (48 <=? n) && (n <=? 57) then Some (n - 48)
  else if (97 <=? n) && (n <=? 122) then Some (n - 87)
  else if (65 <=? n) && (n <=? 90) then Some (n - 55)
  else None.

(** The longest prefix of digits of the radix, read as a mathematical
    integer of any size ([parseInt_string] turns it into a number); [acc] is
    [None] until a digit was read. *)
Fixpoint read_digits (radix : Z) (s : string) (acc : option Z) : option Z :=
  match s with
  | String c s' =>
      match digit_value c with
      | Some d =>
          if d <? radix
          then read_digits radix s' (Some (default 0 acc * radix + d))
          else acc
      | None => acc
      end
  | EmptyString => acc
  end.

(** [parseInt(s)] with no radix: white space, a sign, [0x] or [0X] for radix
    16, then digits; NaN when there is no digit.  The integer read is the
    result when a double holds it; beyond 2^53 JavaScript rounds it (or
    reaches an infinity), which is outside the model: [None]. *)
Definition parseInt_string (s : string) : option num :=
  let s1 := skip_blanks s in
  let '(sign, s2) :=
    match s1 with
    | String "-"%char r => (-1, r)
    | String "+"%char r => (1, r)
    | _ => (1, s1)
    end in
  let '(radix, s3) :=
    match s2 with
    | String "0"%char (String "x"%char r)
    | String "0"%char (String "X"%char r) => (16, r)
    | _ => (10, s2)
    end in
  match read_digits radix s3 None with
  | Some n => if exact (sign * n) then Some (Fin (sign * n)) else None
  | None => Some NaN
  end.

(** [parseInt(v)] first turns [v] into a string.  An integer within 2^53
    prints as its digits; a larger number may print with an exponent
    (parseInt(1e21) is 1), which is outside the model: [None].  null, true,
    false and objects print as words with no digit in front.  An array
    prints its elements separated by commas, so only its first element is
    read (an empty array prints as the empty string). *)
Fixpoint parseInt (v : json) : option num :=
  match v with
  | JStr s => parseInt_string s
  | JNum n => if exact n then Some (Fin n) else None
  | JNull | JBool _ | JObj _ => Some NaN
  | JArr l =>
      match l with
      | x :: _ => parseInt x
      | [] => Some NaN
      end
  end.

(** *** Arithmetic on the storage counters *)

(** ToNumber of what a counter field may hold.  A string, an array or an
    object there would make [+] a string concatenation; that is outside the
    model ([None]), and no handler ever stores one in a counter
    (see [handle_keeps_tidy]). *)
Definition to_number (v : option json) : option num :=
  match v with
  | None => Some NaN
  | Some JNull => Some (Fin 0)
  | Some (JBool b) => Some (Fin (if b then 1 else 0))
  | Some (JNum n) => Some (Fin n)
  | Some (JStr _) | Some (JArr _) | Some (JObj _) => None
  end.

(** The double nearest to an integer (IEEE 754, round to nearest, ties to
    the even significand).  Within 2^53 every integer is a double.  Beyond,
    an integer of [53 + e] bits keeps its 53 leading bits [q], rounded by
    the [e] bits [r] that are cut off. *)
Definition round_double (z : Z) : Z :=
  let a := Z.abs z in
  if a <=? 2 ^ 53 then z
  else
    let e := Z.log2 a - 52 in
    let q := a `div` 2 ^ e in
    let r := a `mod` 2 ^ e in
    let q' :=
      if 2 * r <? 2 ^ e then q
      else if 2 ^ e <? 2 * r then q + 1
      else if Z.even q then q else q + 1 in
    Z.sgn z * (q' * 2 ^ e).

(** The integers that are doubles: those that rounding leaves alone, below
    2^1024, where the infinities start. *)
Definition is_double (z : Z) : bool :=
  (round_double z =? z) && (Z.abs z <? 2 ^ 1024).

(** [a + b] on numbers: the double nearest to the sum of two doubles.  A sum
    that rounds to an infinity is outside the model, and so is an operand
    that is no double (no JSON text parses to it): [None]. *)
Definition js_add (a b : num) : option num :=
  match a, b with
  | Fin x, Fin y =>
      if is_double x && is_double y && (Z.abs (round_double (x + y)) <? 2 ^ 1024)
      then Some (Fin (round_double (x + y)))
      else None
  | _, _ => Some NaN
  end.

(** [a > b]: false as soon as one side is NaN. *)
Definition js_gt (a b : num) : bool :=
  match a, b with
  | Fin x, Fin y => y <? x
  | _, _ => false
  end.

(** [JSON.stringify] writes NaN as null. *)
Definition num_to_json (n : num) : json :=
  match n with
  | Fin z => JNum z
  | NaN => JNull
  end.

(** [Math.round((used / limit) * 100)] in exact arithmetic; a division by
    zero gives NaN or an infinity, which JSON writes as null. *)
Definition percentage (used limit : num) : num :=
  match used, limit with
  | Fin u, Fin l => if l =? 0 then NaN else Fin ((200 * u + l) `div` (2 * l))
  | _, _ => NaN
  end.


(** ** Exceptions, the users file and the two libraries *)

(** A thrown error: its class name and its [code] property (set by the file
    system's errors, absent in a [SyntaxError]). *)
Record js_error : Type := JsError { err_name : string; err_code : option string }.

(** A computation that returns or throws (a rejected promise throws at its
    [await]). *)
Definition exn (A : Type) : Type := js_error + A.

#[global] Instance exn_ret : MRet exn := λ A a, inr a.
#[global] Instance exn_bind : MBind exn :=
  λ A B k m, match m with inl e => inl e | inr a => k a end.

Definition throw {A : Type} (e : js_error) : exn A := inl e.

Definition try_catch {A : Type} (m : exn A) (handler : js_error → exn A) : exn A :=
  match m with
  | inl e => handler e
  | inr a => inr a
  end.

Definition ENOENT : js_error := JsError "Error" (Some "ENOENT").
Definition SyntaxError : js_error := JsError "SyntaxError" None.
Definition TypeError : js_error := JsError "TypeError" None.

(** The text of users.json as [JSON.parse] reads it: rejected, or an array
    of account objects (the only documents [writeUsers] produces). *)
Inductive file_text : Type :=
| Malformed
| Users (users : list obj).

(** users.json as [fs.readFile] finds it: the read fails with an error, or
    yields the text. *)
Inductive disk : Type :=
| Unreadable (e : js_error)
| Contents (t : file_text).

(** No users.json yet. *)
Definition no_file : disk := Unreadable ENOENT.

Definition fs_readFile (d : disk) : exn file_text :=
  match d with
  | Unreadable e => throw e
  | Contents t => mret t
  end.

Definition JSON_parse (t : file_text) : exn (list obj) :=
  match t with
  | Malformed => throw SyntaxError
  | Users users => mret users
  end.

(** What one request reads from outside the program. *)
Record env : Type := Env {
  now : Z;                        (* Date.now(), milliseconds *)
  iso_now : string;               (* new Date().toISOString() *)
  salt : string;                  (* the salt bcrypt.hash draws *)
  write_error : option js_error   (* the error of fs.writeFile, if it fails *)
}.

(** readUsers (lines 21-32). *)
Definition readUsers (d : disk) : exn (list obj) :=
  try_catch
    (data ← fs_readFile d; JSON_parse data)
    (λ error,
       if bool_decide (err_code error = Some "ENOENT")
       then mret []
       else throw error).

(** writeUsers (lines 35-37): the file holds the array, or the write fails
    and the file stays as it was. *)
Definition writeUsers (e : env) (d : disk) (users : list obj) : exn disk :=
  match write_error e with
  | Some err => throw err
  | None => mret (Contents (Users users))
  end.

(** bcrypt: [bcrypt_hash data rounds salt] and [bcrypt_compare data hash]
    on strings. *)
Class Bcrypt : Type := {
  bcrypt_hash : string → Z → string → string;
  bcrypt_compare : string → string → bool
}.

(** What the proofs assume of bcrypt, a library that is not among the
    sources: a hash is never the plaintext itself. *)
Definition bcrypt_contract (B : Bcrypt) : Prop :=
  ∀ data rounds salt, bcrypt_hash data rounds salt ≠ data.

Inductive jwt_error : Type :=
| TokenExpiredError
| JsonWebTokenError.

(** jsonwebtoken: [jwt_sign payload secret iat expiresIn] (times in seconds)
    and [jwt_verify token secret clock]. *)
Class Jwt : Type := {
  jwt_sign : obj → string → Z → Z → string;
  jwt_verify : string → string → Z → jwt_error + obj
}.

(** Modelled from the spec: what [jwt.sign] and [jwt.verify] of the
    jsonwebtoken library return; the library is not among the sources.  A
    token signed with a secret verifies under that secret to its payload
    with [iat] and [exp] added, until the clock reaches [exp]; from then on
    it is expired.  A token that no signing under the secret produces (a
    forged, altered or malformed one) is invalid. *)
Definition jwt_contract (J : Jwt) : Prop :=
  (∀ payload secret iat expiresIn clock,
     payload !! "iat" = None → payload !! "exp" = None →
     jwt_verify (jwt_sign payload secret iat expiresIn) secret clock =
       if clock <? iat + expiresIn
       then inr (<["exp" := JNum (iat + expiresIn)]> (<["iat" := JNum iat]> payload))
       else inl TokenExpiredError) ∧
  (∀ token secret clock,
     (∀ payload iat expiresIn, token ≠ jwt_sign payload secret iat expiresIn) →
     jwt_verify token secret clock = inl JsonWebTokenError).

(** bcrypt refuses data that is not a string: the promise is rejected. *)
Definition bcrypt_hash_js `{Bcrypt} (data : option json) (rounds : Z) (salt : string)
    : exn string :=
  match data with
  | Some (JStr s) => mret (bcrypt_hash s rounds salt)
  | _ => throw (JsError "Error" None)
  end.

Definition bcrypt_compare_js `{Bcrypt} (data hash : option json) : exn bool :=
  match data, hash with
  | Some (JStr s), Some (JStr h) => mret (bcrypt_compare s h)
  | _, _ => throw (JsError "Error" None)
  end.

(** ** The handlers *)

Record response : Type := Response { status : Z; body : obj }.

Definition error_response (code : Z) (message : string) : response :=
  Response code {[ "error" := JStr message ]}.

(** [{ ..., key: value }]: a property whose value is undefined is not
    written by [JSON.stringify]. *)
Definition with_property (key : string) (value : option json) (o : obj) : obj :=
  match value with
  | Some v => <[key := v]> o
  | None => o
  end.

(** [const { password: _, ...userData } = user]. *)
Definition userData (user : obj) : obj := delete "password" user.

(** [users.findIndex(p)]; [None] stands for -1. *)
Fixpoint findIndex {A : Type} (p : A → bool) (l : list A) : option nat :=
  match l with
  | [] => None
  | x :: l' => if p x then Some 0%nat else S <$> findIndex p l'
  end.

(** [s.split(' ')]. *)
Fixpoint split_space (s : string) : list string :=
  match s with
  | EmptyString => [""]
  | String c s' =>
      if Ascii.eqb c " "%char then "" :: split_space s'
      else match split_space s' with
           | w :: ws => String c w :: ws
           | [] => [String c ""]
           end
  end.

(** [expiresIn: '7d'], in seconds. *)
Definition seven_days : Z := 7 * 24 * 60 * 60.

(** [storageLimit: 1099511627776] (line 70). *)
Definition storageLimit_1TB : Z := 1099511627776.

(** Line 201. *)
Definition allowedUpdates : list string := ["username"; "email"; "settings"].

(** The loop of lines 203-207 over the keys of the request body. *)
Definition apply_updates (patch user : obj) : obj :=
  map_fold
    (λ key value acc,
       if bool_decide (key ∈ allowedUpdates) then <[key := value]> acc else acc)
    user patch.

Section Server.
Context `{B : Bcrypt} `{J : Jwt}.

(** [process.env.JWT_SECRET]. *)
Variable JWT_SECRET : option string.

(** [process.env.JWT_SECRET || 'cloudim-secret-key']. *)
Definition secret : string :=
  match JWT_SECRET with
  | Some s => if String.eqb s "" then "cloudim-secret-key" else s
  | None => "cloudim-secret-key"
  end.

(** [jwt.sign({ userId: user.id, email: user.email }, secret,
    { expiresIn: '7d' })] (lines 85-89 and 129-133). *)
Definition issueToken (e : env) (user : obj) : string :=
  jwt_sign
    (with_property "userId" (user !! "id") (with_property "email" (user !! "email") ∅))
    secret (now e `div` 1000) seven_days.

(** The settings of a new account (lines 73-77). *)
Definition default_settings : obj :=
  <["autoSync" := JBool false]>
    (<["notifications" := JBool true]> {[ "theme" := JStr "light" ]}).

(** The account of lines 64-78. *)
Definition newUser (e : env) (username email : option json) (hashedPassword : string)
    : obj :=
  with_property "username" username
    (with_property "email" email
       (<["id" := JStr (pretty (now e))]>
          (<["password" := JStr hashedPassword]>
             (<["storageUsed" := JNum 0]>
                (<["storageLimit" := JNum storageLimit_1TB]>
                   (<["createdAt" := JStr (iso_now e)]>
                      (<["isActive" := JBool true]>
                         {[ "settings" := JObj default_settings ]}))))))).

(** [u => u.email === email || u.username === username] (line 55). *)
Definition same_email_or_username (email username : option json) (u : obj) : bool :=
  strict_eq (u !! "email") email || strict_eq (u !! "username") username.

(** The handler's own try/catch: an error thrown in the body answers 500
    (every throw comes before the file is written). *)
Definition or_500 (d : disk) (message : string) (m : exn (disk * response))
    : disk * response :=
  match m with
  | inr r => r
  | inl _ => (d, error_response 500 message)
  end.

(** POST /api/auth/register (lines 42-102). *)
Definition register (e : env) (d : disk) (req_body : obj) : disk * response :=
  let username := req_body !! "username" in
  let email := req_body !! "email" in
  let password := req_body !! "password" in
  if negb (truthy username) || negb (truthy email) || negb (truthy password)
  then (d, error_response 400 "Todos os campos são obrigatórios")
  else
    or_500 d "Erro interno do servidor"
      (users ← readUsers d;
       let existingUser := find (same_email_or_username email username) users in
       match existingUser with
       | Some _ => mret (d, error_response 409 "Usuário ou email já cadastrado")
       | None =>
           hashedPassword ← bcrypt_hash_js password 12 (salt e);
           let user := newUser e username email hashedPassword in
           d' ← writeUsers e d (users ++ [user]);
           let token := issueToken e user in
           mret (d', Response 201
                       (<["message" := JStr "Conta criada com sucesso!"]>
                          (<["token" := JStr token]>
                             {[ "user" := JObj (userData user) ]})))
       end).

(** POST /api/auth/login (lines 105-146). *)
Definition login (e : env) (d : disk) (req_body : obj) : disk * response :=
  let email := req_body !! "email" in
  let password := req_body !! "password" in
  if negb (truthy email) || negb (truthy password)
  then (d, error_response 400 "Email e senha são obrigatórios")
  else
    or_500 d "Erro interno do servidor"
      (users ← readUsers d;
       match find (λ u, strict_eq (u !! "email") email) users with
       | None => mret (d, error_response 401 "Credenciais inválidas")
       | Some user =>
           isValidPassword ← bcrypt_compare_js password (user !! "password");
           if negb isValidPassword
           then mret (d, error_response 401 "Credenciais inválidas")
           else
             let token := issueToken e user in
             mret (d, Response 200
                        (<["message" := JStr "Login bem-sucedido!"]>
                           (<["token" := JStr token]>
                              {[ "user" := JObj (userData user) ]})))
       end).

(** [authHeader && authHeader.split(' ')[1]]; [None] when the result is
    undefined or the empty string (what [!token] tests). *)
Definition bearer_token (authHeader : option string) : option string :=
  match authHeader with
  | None => None
  | Some h =>
      match split_space h !! 1%nat with
      | Some t => if String.eqb t "" then None else Some t
      | None => None
      end
  end.

(** authenticateToken (lines 149-176): the response that ends the request,
    or the account put in [req.user]. *)
Definition authenticateToken (e : env) (d : disk) (authHeader : option string)
    : response + obj :=
  match bearer_token authHeader with
  | None => inl (error_response 401 "Token não fornecido")
  | Some token =>
      match jwt_verify token secret (now e `div` 1000) with
      | inl err => inl (error_response 401 "Token inválido")
      | inr decoded =>
          match readUsers d with
          | inl _ => inl (error_response 500 "Erro ao verificar usuário")
          | inr users =>
              match find (λ u, strict_eq (u !! "id") (decoded !! "userId")) users with
              | None => inl (error_response 401 "Usuário não encontrado")
              | Some user => inr user
              end
          end
      end
  end.

(** GET /api/auth/verify and GET /api/user/profile (lines 179-188). *)
Definition profile (req_user : obj) : response :=
  Response 200 {[ "user" := JObj (userData req_user) ]}.

(** PUT /api/user/profile (lines 191-219). *)
Definition update_profile (e : env) (d : disk) (req_user req_body : obj)
    : disk * response :=
  or_500 d "Erro ao atualizar perfil"
    (users ← readUsers d;
     match findIndex (λ u, strict_eq (u !! "id") (req_user !! "id")) users with
     | None => mret (d, error_response 404 "Usuário não encontrado")
     | Some userIndex =>
         match users !! userIndex with
         | Some stored =>
             let user := apply_updates req_body stored in
             d' ← writeUsers e d (<[userIndex := user]> users);
             mret (d', Response 200
                         (<["message" := JStr "Perfil atualizado com sucesso!"]>
                            {[ "user" := JObj (userData user) ]}))
         | None => throw TypeError
         end
     end).

(** GET /api/user/stats (lines 222-233); the two random counts are left
    out.  [None]: a counter holds a string, an array or an object (see
    [to_number]). *)
Definition stats (e : env) (req_user : obj) : option response :=
  used ← to_number (req_user !! "storageUsed");
  limit ← to_number (req_user !! "storageLimit");
  Some (Response 200
          {[ "stats" :=
               JObj (with_property "storageUsed" (req_user !! "storageUsed")
                       (with_property "storageLimit" (req_user !! "storageLimit")
                          (<["storagePercentage" := num_to_json (percentage used limit)]>
                             {[ "lastActivity" := JStr (iso_now e) ]}))) ]}).

(** [parseInt(size)] on a property that may be missing. *)
Definition parseInt_property (v : option json) : option num :=
  match v with
  | Some x => parseInt x
  | None => Some NaN
  end.

(** POST /api/files/upload (lines 236-278); the random file id and url of
    the answer are left out.  [None]: a counter holds a string, an array or
    an object (see [to_number]), or the size is a number that JavaScript
    rounds or the new counter is infinite (see [parseInt] and [js_add]).
    The code reads
    [parseInt(size)] a second time for the answer, with the same result. *)
Definition upload (e : env) (d : disk) (req_user req_body : obj)
    : option (disk * response) :=
  let filename := req_body !! "filename" in
  let size := req_body !! "size" in
  if negb (truthy filename) || negb (truthy size)
  then Some (d, error_response 400 "Nome do arquivo e tamanho são obrigatórios")
  else
    match readUsers d with
    | inl _ => Some (d, error_response 500 "Erro ao fazer upload")
    | inr users =>
        match findIndex (λ u, strict_eq (u !! "id") (req_user !! "id")) users with
        | None => Some (d, error_response 404 "Usuário não encontrado")
        | Some userIndex =>
            match users !! userIndex with
            | None => Some (d, error_response 500 "Erro ao fazer upload")
            | Some stored =>
                used ← to_number (stored !! "storageUsed");
                limit ← to_number (stored !! "storageLimit");
                delta ← parseInt_property size;
                newSize ← js_add used delta;
                if js_gt newSize limit
                then Some (d, error_response 400 "Limite de armazenamento excedido")
                else
                  let user := <["storageUsed" := num_to_json newSize]> stored in
                  match writeUsers e d (<[userIndex := user]> users) with
                  | inl _ => Some (d, error_response 500 "Erro ao fazer upload")
                  | inr d' =>
                      Some (d', Response 200
                        (<["message" := JStr "Arquivo enviado com sucesso!"]>
                           (<["file" :=
                                JObj (with_property "name" filename
                                        (<["size" := num_to_json delta]>
                                           {[ "uploadedAt" := JStr (iso_now e) ]}))]>
                              {[ "storage" :=
                                   JObj (<["used" := num_to_json newSize]>
                                           (with_property "limit" (stored !! "storageLimit")
                                              {[ "percentage" :=
                                                   num_to_json (percentage newSize limit) ]})) ]})))
                  end
            end
        end
    end.

(** The routes that read or write accounts.  (GET /api/files and GET /
    answer constants.) *)
Inductive request : Type :=
| PostRegister (req_body : obj)
| PostLogin (req_body : obj)
| GetVerify (authorization : option string)
| GetProfile (authorization : option string)
| PutProfile (authorization : option string) (req_body : obj)
| GetStats (authorization : option string)
| PostUpload (authorization : option string) (req_body : obj).

(** One request against the file: the file afterwards and the answer. *)
Definition handle (e : env) (d : disk) (r : request) : option (disk * response) :=
  match r with
  | PostRegister req_body => Some (register e d req_body)
  | PostLogin req_body => Some (login e d req_body)
  | GetVerify h | GetProfile h =>
      match authenticateToken e d h with
      | inl res => Some (d, res)
      | inr req_user => Some (d, profile req_user)
      end
  | PutProfile h req_body =>
      match authenticateToken e d h with
      | inl res => Some (d, res)
      | inr req_user => Some (update_profile e d req_user req_body)
      end
  | GetStats h =>
      match authenticateToken e d h with
      | inl res => Some (d, res)
      | inr req_user => res ← stats e req_user; Some (d, res)
      end
  | PostUpload h req_body =>
      match authenticateToken e d h with
      | inl res => Some (d, res)
      | inr req_user => upload e d req_user req_body
      end
  end.

(** The files the server can produce, starting with no users.json. *)
Inductive reachable : disk → Prop :=
| reachable_start : reachable no_file
| reachable_step e d r d' res :
    reachable d → handle e d r = Some (d', res) → reachable d'.

End Server.

(** ** What the handlers write *)

(** A storage counter as the handlers leave it: an integer that is at most
    the limit of an account, or the null that a NaN is written as. *)
Definition counter_value (v : option json) : Prop :=
  v = Some JNull ∨ ∃ n, v = Some (JNum n) ∧ n ≤ storageLimit_1TB.

(** An account as the handlers leave it. *)
Record tidy (u : obj) : Prop := Tidy {
  tidy_used : counter_value (u !! "storageUsed");
  tidy_limit : u !! "storageLimit" = Some (JNum storageLimit_1TB);
  tidy_no_hash : u !! "passwordHash" = None
}.

Definition tidy_disk (d : disk) : Prop :=
  ∀ users, readUsers d = inr users → Forall tidy users.

(** The three ways a handler changes the array before writing it: the
    push of line 81, the loop of lines 203-207, the assignment of line 257. *)
Inductive rewrite_of (users : list obj) : list obj → Prop :=
| rewrite_register e username email hashedPassword :
    rewrite_of users (users ++ [newUser e username email hashedPassword])
| rewrite_update userIndex stored patch :
    users !! userIndex = Some stored →
    rewrite_of users (<[userIndex := apply_updates patch stored]> users)
| rewrite_upload userIndex stored used limit delta newSize :
    users !! userIndex = Some stored →
    to_number (stored !! "storageUsed") = Some used →
    to_number (stored !! "storageLimit") = Some limit →
    js_add used delta = Some newSize →
    js_gt newSize limit = false →
    rewrite_of users
      (<[userIndex := <["storageUsed" := num_to_json newSize]> stored]> users).

(** The properties some handler assigns after an account is created. *)
Definition assigned_keys : list string :=
  ["username"; "email"; "settings"; "storageUsed"].

(** ** Stand-ins for the two libraries

    The examples below run the handlers, so they need a bcrypt and a
    jsonwebtoken that compute.  These stand-ins meet the contracts and
    nothing more: the hash shows its input and the token is not signed. *)

Definition demo_bcrypt : Bcrypt := {|
  bcrypt_hash data rounds salt := String "$"%char data;
  bcrypt_compare data hash := String.eqb hash (String "$"%char data)
|}.

(** A token of the stand-in is a number in binary behind a [t]; the number
    encodes the payload, the secret and the two times.  The payload is
    encoded as one of stdpp's generic trees. *)
Definition json_leaf : Type := bool + Z + string.

Fixpoint to_tree (v : json) : gen_tree json_leaf :=
  match v with
  | JNull => GenNode 0 []
  | JBool b => GenLeaf (inl (inl b))
  | JNum n => GenLeaf (inl (inr n))
  | JStr s => GenLeaf (inr s)
  | JArr l => GenNode 1 (to_tree <$> l)
  | JObj o =>
      GenNode 2 ((λ kv, GenNode 3 [GenLeaf (inr kv.1); kv.2])
                   <$> map_to_list (to_tree <$> o))
  end.

Fixpoint of_tree (t : gen_tree json_leaf) : json :=
  match t with
  | GenLeaf (inl (inl b)) => JBool b
  | GenLeaf (inl (inr n)) => JNum n
  | GenLeaf (inr s) => JStr s
  | GenNode 1 ts => JArr (of_tree <$> ts)
  | GenNode 2 ts =>
      JObj (list_to_map
              (omap (λ t', match t' with
                           | GenNode 3 [GenLeaf (inr k); x] => Some (k, of_tree x)
                           | _ => None
                           end) ts))
  | GenNode _ _ => JNull
  end.

(** The number of constructors of a value, for induction on nested values. *)
Fixpoint json_size (v : json) : nat :=
  match v with
  | JArr l => S (foldr (λ x n, json_size x + n)%nat 0%nat l)
  | JObj o => S (map_fold (λ _ x n, json_size x + n)%nat 0%nat o)
  | _ => 1%nat
  end.

(** A positive number in binary, lowest bit first, and back. *)
Fixpoint pos_to_bits (p : positive) : string :=
  match p with
  | xH => ""
  | xO q => String "0"%char (pos_to_bits q)
  | xI q => String "1"%char (pos_to_bits q)
  end.

Fixpoint bits_to_pos (s : string) : option positive :=
  match s with
  | EmptyString => Some xH
  | String c r =>
      if Ascii.eqb c "0"%char then xO <$> bits_to_pos r
      else if Ascii.eqb c "1"%char then xI <$> bits_to_pos r
      else None
  end.

Definition demo_sign (payload : obj) (secret : string) (iat expiresIn : Z) : string :=
  String "t"%char (pos_to_bits (encode (to_tree (JObj payload), secret, iat, expiresIn))).

Definition demo_verify (token secret : string) (clock : Z) : jwt_error + obj :=
  match token with
  | String c bits =>
      if Ascii.eqb c "t"%char then
        match bits_to_pos bits ≫= decode (A := gen_tree json_leaf * string * Z * Z) with
        | Some (tree, secret', iat, expiresIn) =>
            match of_tree tree with
            | JObj payload =>
                if bool_decide (demo_sign payload secret' iat expiresIn = token
                                ∧ secret' = secret)
                then if clock <? iat + expiresIn
                     then inr (<["exp" := JNum (iat + expiresIn)]>
                                 (<["iat" := JNum iat]> payload))
                     else inl TokenExpiredError
                else inl JsonWebTokenError
            | _ => inl JsonWebTokenError
            end
        | None => inl JsonWebTokenError
        end
      else inl JsonWebTokenError
  | EmptyString => inl JsonWebTokenError
  end.

Definition demo_jwt : Jwt := {| jwt_sign := demo_sign; jwt_verify := demo_verify |}.

(** ** A small example *)

(** A request environment: the clock reads 1700000000123 ms and the write
    succeeds. *)
Definition clock0 : env :=
  Env 1700000000123 "2023-11-14T22:13:20.123Z" "c2FsdA" None.

(** The same instant one week later. *)
Definition clock_week_later : env :=
  Env (1700000000123 + 604800000) "2023-11-21T22:13:20.123Z" "c2FsdA" None.

Definition ana_request : obj :=
  <["username" := JStr "ana"]>
    (<["email" := JStr "ana@x.com"]> {[ "password" := JStr "p1" ]}).

Definition bob_request : obj :=
  <["username" := JStr "bob"]>
    (<["email" := JStr "bob@x.com"]> {[ "password" := JStr "p2" ]}).

(** ana's username and email again, and no password. *)
Definition ana_again_request : obj :=
  <["username" := JStr "ana"]> {[ "email" := JStr "ana@x.com" ]}.

(** ana's account as the stand-in bcrypt hashes it. *)
Definition ana_account : obj :=
  newUser clock0 (Some (JStr "ana")) (Some (JStr "ana@x.com")) "$p1".

Definition ana_file : disk := Contents (Users [ana_account]).

(** ana registers with a server that has no users.json. *)
Definition ana_registered : disk * response :=
  register (B := demo_bcrypt) (J := demo_jwt) None clock0 no_file ana_request.

(** The Authorization header with the token of that answer. *)
Definition ana_authorization : option string :=
  match body ana_registered.2 !! "token" with
  | Some (JStr token) => Some ("Bearer " +:+ token)
  | _ => None
  end.

(** ana uploads a file of the given size. *)
Definition ana_uploads (size : json) : option (disk * response) :=
  handle (B := demo_bcrypt) (J := demo_jwt) None clock0 ana_registered.1
    (PostUpload ana_authorization (<["filename" := JStr "a.txt"]> {[ "size" := size ]})).

(** bob registers right after ana, within the same millisecond. *)
Definition bob_registered : disk * response :=
  register (B := demo_bcrypt) (J := demo_jwt) None clock0 ana_registered.1 bob_request.






(** A property of the i-th account of the file. *)
Definition stored_property (d : disk) (i : nat) (key : string) : option json :=
  match d with
  | Contents (Users users) => users !! i ≫= (.!! key)
  | _ => None
  end.

(** The status of an answer and the storageUsed of the first account of the
    file it leaves. *)
Definition status_and_storageUsed (r : disk * response) : Z * option json :=
  (status r.2, stored_property r.1 0 "storageUsed").

(** ** Vocabulary of the further properties *)

(** What the further proofs assume of bcrypt, a library that is not among
    the sources: [bcrypt.compare] accepts a password against its own hash. *)
Definition bcrypt_compare_contract (B : Bcrypt) : Prop :=
  ∀ data rounds salt, bcrypt_compare data (bcrypt_hash data rounds salt) = true.

(** The ids of the accounts of a file, in order. *)
Definition account_ids (users : list obj) : list (option json) :=
  (λ u : obj, u !! "id") <$> users.

(** A string with no space in it. *)
Fixpoint no_space (s : string) : bool :=
  match s with
  | EmptyString => true
  | String c r => negb (Ascii.eqb c " "%char) && no_space r
  end.

(** The Authorization header of a request to a route behind the
    middleware; [None] for the two routes that have none. *)
Definition authorization_of (r : request) : option (option string) :=
  match r with
  | PostRegister _ | PostLogin _ => None
  | GetVerify h | GetProfile h | PutProfile h _ | GetStats h | PostUpload h _ => Some h
  end.

(** The same instant one second later. *)
Definition clock_second_later : env :=
  Env (1700000000123 + 1000) "2023-11-14T22:13:21.123Z" "c2FsdA" None.

(** The routes that only read the file. *)
Definition read_only (r : request) : bool :=
  match r with
  | PostLogin _ | GetVerify _ | GetProfile _ | GetStats _ => true
  | PostRegister _ | PutProfile _ _ | PostUpload _ _ => false
  end.

(** ana's email with her password, and with another one. *)
Definition ana_login_request : obj :=
  <["email" := JStr "ana@x.com"]> {[ "password" := JStr "p1" ]}.

Definition ana_wrong_password_request : obj :=
  <["email" := JStr "ana@x.com"]> {[ "password" := JStr "p9" ]}.

(** A profile update that renames the account. *)
Definition rename_to_eve : obj := {[ "username" := JStr "eve" ]}.


(** bob registers one second after ana. *)
Definition bob_registered_later : disk * response :=
  register (B := demo_bcrypt) (J := demo_jwt) None clock_second_later ana_file bob_request.

(** A users.json that is not JSON. *)
Definition broken_file : disk := Contents Malformed.

(** A decimal digit, and a string of decimal digits. *)
Definition is_decimal_digit (c : ascii) : bool :=
  let n := Z.of_nat (nat_of_ascii c) in (48 <=? n) && (n <=? 57).

Fixpoint decimal (s : string) : bool :=
  match s with
  | EmptyString => true
  | String c r => is_decimal_digit c && decimal r
  end.

(** ** Properties *)

(** Unfolds the exception monad. *)
Ltac exn_simpl :=
  unfold throw, try_catch, mret, exn_ret, mbind, exn_bind in *; simpl in *.

Ltac handler_cases :=
  repeat first
    [ progress simplify_eq
    | progress exn_simpl
    | case_match
    | match goal with
      | H : context [option_bind _ _ _ (to_number ?v)] |- _ =>
          destruct (to_number v) eqn:?
      | H : context [option_bind _ _ _ (parseInt_property ?v)] |- _ =>
          destruct (parseInt_property v) eqn:?
      | H : context [option_bind _ _ _ (js_add ?a ?b)] |- _ =>
          destruct (js_add a b) eqn:?
      end ];
  try done.

(** Decides that a given key is none of the keys of a given list. *)
Ltac not_a_key :=
  let H := fresh in
  intros H;
  repeat (apply elem_of_cons in H as [H|H]; [discriminate H|]);
  by apply elem_of_nil in H.

(** *** The users file *)

Lemma readUsers_contents users : readUsers (Contents (Users users)) = inr users.
Proof. reflexivity. Qed.

Lemma readUsers_no_file : readUsers no_file = inr [].
Proof. reflexivity. Qed.

(** What a readable file is: none at all, or an array of accounts. *)
Lemma readUsers_inr d users :
  readUsers d = inr users →
  (∃ e, d = Unreadable e ∧ err_code e = Some "ENOENT" ∧ users = []) ∨
  d = Contents (Users users).
Proof.
  destruct d as [e|[|us]]; unfold readUsers; simpl.
  - case_bool_decide as Hc; [|done]. intros [= <-]. left. by exists e.
  - done.
  - intros [= ->]. by right.
Qed.

(** C7.  readUsers turns a failure into the empty array exactly when the
    failure is a read error with code ENOENT (no users.json); every other
    read error and every parse error is thrown on to the caller unchanged.
    A file that is read and parsed is returned as it is. *)
Theorem readUsers_swallows_only_ENOENT (d : disk) :
  (∀ e, fs_readFile d = inl e →
        (readUsers d = inr [] ↔ err_code e = Some "ENOENT") ∧
        (err_code e ≠ Some "ENOENT" → readUsers d = inl e)) ∧
  (∀ t e, fs_readFile d = inr t → JSON_parse t = inl e → readUsers d = inl e) ∧
  (∀ t users, fs_readFile d = inr t → JSON_parse t = inr users →
              readUsers d = inr users).
Proof.
  split; [|split].
  - intros e He. destruct d as [e'|t]; exn_simpl; inversion He; subst.
    unfold readUsers; exn_simpl. case_bool_decide as Hc.
    + split; [done|]. by intros [].
    + split; [|done]. split; [done|]. by intros.
  - intros t e Ht He. destruct d as [e'|t']; exn_simpl; inversion Ht; subst.
    destruct t as [|us]; exn_simpl; inversion He; subst. reflexivity.
  - intros t users Ht Hu. destruct d as [e'|t']; exn_simpl; inversion Ht; subst.
    destruct t as [|us]; exn_simpl; inversion Hu; subst. reflexivity.
Qed.

(** *** The profile update *)

(** The loop of lines 203-207, property by property. *)
Lemma apply_updates_lookup (patch user : obj) (key : string) :
  apply_updates patch user !! key =
    if bool_decide (key ∈ allowedUpdates)
    then match patch !! key with
         | Some v => Some v
         | None => user !! key
         end
    else user !! key.
Proof.
  unfold apply_updates.
  apply (map_fold_weak_ind
           (λ acc m, acc !! key =
              if bool_decide (key ∈ allowedUpdates)
              then match m !! key with Some v => Some v | None => user !! key end
              else user !! key)).
  - rewrite lookup_empty. by case_bool_decide.
  - intros k v m acc Hk IH.
    destruct (decide (k = key)) as [->|Hne].
    + rewrite lookup_insert_eq. case_bool_decide as Hin.
      * by rewrite lookup_insert_eq.
      * done.
    + rewrite (lookup_insert_ne m) by done.
      destruct (bool_decide (k ∈ allowedUpdates));
        [by rewrite lookup_insert_ne|done].
Qed.

Lemma findIndex_Some {A : Type} (p : A → bool) (l : list A) (i : nat) :
  findIndex p l = Some i → ∃ x, l !! i = Some x ∧ p x = true.
Proof.
  revert i. induction l as [|x l IH]; intros i; simpl; [done|].
  destruct (p x) eqn:Hp.
  - intros [= <-]. by exists x.
  - destruct (findIndex p l) as [j|]; simpl; [|done].
    intros [= <-]. by apply IH.
Qed.

Section Handlers.
Context `{B : Bcrypt} `{J : Jwt}.
Variable JWT_SECRET : option string.

(** C4.  PUT /api/user/profile on a stored account: the account written
    back has, for each of the keys username, email and settings, the value
    of the request body when the body has that key and the stored value
    otherwise, and under every other key (password, storageUsed,
    storageLimit, id, createdAt, ...) the stored value, whatever the body
    holds there.  The other accounts of the file are written back as they
    were. *)
Theorem update_profile_copies_allowed_fields
    (e : env) (d : disk) (req_user req_body : obj)
    (users : list obj) (userIndex : nat) (stored : obj) :
  readUsers d = inr users →
  findIndex (λ u, strict_eq (u !! "id") (req_user !! "id")) users = Some userIndex →
  users !! userIndex = Some stored →
  write_error e = None →
  ∃ user,
    update_profile e d req_user req_body =
      (Contents (Users (<[userIndex := user]> users)),
       Response 200 (<["message" := JStr "Perfil atualizado com sucesso!"]>
                       {[ "user" := JObj (userData user) ]})) ∧
    ∀ key,
      user !! key =
        if bool_decide (key ∈ ["username"; "email"; "settings"])
        then match req_body !! key with
             | Some v => Some v
             | None => stored !! key
             end
        else stored !! key.
Proof.
  intros Hread Hidx Hstored Hwrite.
  exists (apply_updates req_body stored). split.
  - unfold update_profile, writeUsers. rewrite Hread. exn_simpl.
    rewrite Hidx, Hstored, Hwrite. reflexivity.
  - intros key. apply apply_updates_lookup.
Qed.







Lemma find_is_Some {A : Type} (p : A → bool) (l : list A) :
  (∃ x, x ∈ l ∧ p x = true) → is_Some (find p l).
Proof.
  intros (x & Hx & Hp). induction Hx as [x l|x y l _ IH]; simpl.
  - rewrite Hp. eauto.
  - destruct (p y); eauto.
Qed.

Lemma find_is_None {A : Type} (p : A → bool) (l : list A) :
  (∀ x, x ∈ l → p x = false) → find p l = None.
Proof.
  induction l as [|y l IH]; intros Hall; simpl; [done|].
  rewrite (Hall y) by apply list_elem_of_here.
  apply IH. intros x Hx. apply Hall. by apply list_elem_of_further.
Qed.

Lemma find_elem_of {A : Type} (p : A → bool) (l : list A) (x : A) :
  find p l = Some x → x ∈ l ∧ p x = true.
Proof.
  intros Hf. apply find_some in Hf as [Hin Hp]. split; [|done].
  by apply list_elem_of_In.
Qed.

(** The properties of a new account (lines 64-78). *)
Lemma newUser_lookup (e : env) (username email : option json) (hashed key : string) :
  newUser e username email hashed !! key =
    if String.eqb key "username" then username
    else if String.eqb key "email" then email
    else if String.eqb key "id" then Some (JStr (pretty (now e)))
    else if String.eqb key "password" then Some (JStr hashed)
    else if String.eqb key "storageUsed" then Some (JNum 0)
    else if String.eqb key "storageLimit" then Some (JNum storageLimit_1TB)
    else if String.eqb key "createdAt" then Some (JStr (iso_now e))
    else if String.eqb key "isActive" then Some (JBool true)
    else if String.eqb key "settings" then Some (JObj default_settings)
    else None.
Proof.
  unfold newUser, with_property.
  repeat match goal with
         | |- context [String.eqb key ?k] =>
             destruct (String.eqb_spec key k) as [->|?];
             [destruct username, email; by simplify_map_eq|]
         end.
  destruct username, email; by simplify_map_eq.
Qed.

(** The id of a new account is the clock reading in decimal: two new
    accounts have the same id exactly when the clock read the same
    millisecond. *)
Lemma ids_follow_the_clock e1 e2 u1 m1 h1 u2 m2 h2 :
  newUser e1 u1 m1 h1 !! "id" = newUser e2 u2 m2 h2 !! "id" ↔ now e1 = now e2.
Proof.
  rewrite !newUser_lookup.
  change (Some (JStr (pretty (now e1))) = Some (JStr (pretty (now e2)))
          ↔ now e1 = now e2).
  split.
  - intros Heq. injection Heq as Heq. exact (pretty_Z_inj _ _ Heq).
  - intros Heq. rewrite Heq. reflexivity.
Qed.

(** C1, as the handler has it.  With username, email and password all
    present in the request and a file that can be read: when an account of
    the file has the same email or the same username as the request
    (JavaScript's [===]), the answer is 409 "Usuário ou email já cadastrado"
    and the file is the one it was; when no account has, the password is a
    string and the write succeeds, the answer is 201, the file holds the
    old accounts followed by the new one, and the new account's password
    property is bcrypt's hash of the request's password with 12 rounds,
    which is not the password itself. *)
Theorem register_duplicates_and_hash
    (e : env) (d : disk) (req_body : obj) (users : list obj) :
  truthy (req_body !! "username") = true →
  truthy (req_body !! "email") = true →
  truthy (req_body !! "password") = true →
  readUsers d = inr users →
  ((∃ u, u ∈ users ∧
         same_email_or_username (req_body !! "email") (req_body !! "username") u = true) →
   register JWT_SECRET e d req_body =
     (d, error_response 409 "Usuário ou email já cadastrado")) ∧
  (∀ password,
     (∀ u, u ∈ users →
           same_email_or_username (req_body !! "email") (req_body !! "username") u = false) →
     req_body !! "password" = Some (JStr password) →
     write_error e = None →
     bcrypt_contract B →
     ∃ user token,
       register JWT_SECRET e d req_body =
         (Contents (Users (users ++ [user])),
          Response 201 (<["message" := JStr "Conta criada com sucesso!"]>
                          (<["token" := JStr token]>
                             {[ "user" := JObj (userData user) ]}))) ∧
       user !! "password" = Some (JStr (bcrypt_hash password 12 (salt e))) ∧
       user !! "password" ≠ Some (JStr password)).
Proof.
  intros Hu He Hp Hread. split.
  - intros Hdup. apply find_is_Some in Hdup as [u Hfind].
    unfold register. rewrite Hu, He, Hp, Hread. exn_simpl. by rewrite Hfind.
  - intros password Hnone Hpw Hwrite Hhash.
    apply find_is_None in Hnone.
    set (user := newUser e (req_body !! "username") (req_body !! "email")
                   (bcrypt_hash password 12 (salt e))).
    exists user, (issueToken JWT_SECRET e user).
    assert (user !! "password" = Some (JStr (bcrypt_hash password 12 (salt e))))
      as Hstored by (unfold user; by rewrite newUser_lookup).
    split; [|split; [done|]].
    + unfold register, writeUsers. rewrite Hu, He, Hp, Hread. exn_simpl.
      rewrite Hnone, Hpw, Hwrite. exn_simpl. reflexivity.
    + rewrite Hstored. intros [= Heq]. by apply Hhash in Heq.
Qed.

(** bcrypt rejects a password that is not a string (a JSON number, say):
    the handler answers 500 and writes nothing. *)
Lemma register_needs_a_string_password
    (e : env) (d : disk) (req_body : obj) (users : list obj) :
  truthy (req_body !! "username") = true →
  truthy (req_body !! "email") = true →
  truthy (req_body !! "password") = true →
  (∀ s, req_body !! "password" ≠ Some (JStr s)) →
  readUsers d = inr users →
  (∀ u, u ∈ users →
        same_email_or_username (req_body !! "email") (req_body !! "username") u = false) →
  register JWT_SECRET e d req_body = (d, error_response 500 "Erro interno do servidor").
Proof.
  intros Hu He Hp Hnot Hread Hnone. apply find_is_None in Hnone.
  unfold register, bcrypt_hash_js. rewrite Hu, He, Hp, Hread. exn_simpl.
  rewrite Hnone.
  destruct (req_body !! "password") as [[| | |s| |]|]; try done.
  by destruct (Hnot s).
Qed.

End Handlers.

(** *** What the handlers write *)

Lemma apply_updates_other (patch user : obj) (key : string) :
  key ∉ allowedUpdates → apply_updates patch user !! key = user !! key.
Proof. intros Hk. rewrite apply_updates_lookup. by rewrite bool_decide_eq_false_2. Qed.

Lemma not_assigned_not_allowed key : key ∉ assigned_keys → key ∉ allowedUpdates.
Proof.
  unfold assigned_keys, allowedUpdates. intros Hk Hin. apply Hk.
  apply elem_of_cons in Hin as [->|Hin]; [set_solver|].
  apply elem_of_cons in Hin as [->|Hin]; [set_solver|].
  apply elem_of_cons in Hin as [->|Hin]; [set_solver|].
  by apply elem_of_nil in Hin.
Qed.

(** A rewrite keeps every account in its place and changes at most the
    four assigned properties of it. *)
Lemma rewrite_of_frame users users' :
  rewrite_of users users' →
  ∀ i u, users !! i = Some u →
    ∃ u', users' !! i = Some u' ∧
          ∀ key, key ∉ assigned_keys → u' !! key = u !! key.
Proof.
  intros Hrw i u Hi.
  destruct Hrw as [e un em h|j stored patch Hj|j stored used limit delta newSize Hj].
  - exists u. split; [|done]. by apply lookup_app_l_Some.
  - destruct (decide (j = i)) as [->|Hne].
    + exists (apply_updates patch stored). split.
      * apply list_lookup_insert_eq. by eapply lookup_lt_Some.
      * intros key Hk. simplify_eq. by apply apply_updates_other, not_assigned_not_allowed.
    + exists u. by rewrite list_lookup_insert_ne.
  - destruct (decide (j = i)) as [->|Hne].
    + eexists. split.
      * apply list_lookup_insert_eq. by eapply lookup_lt_Some.
      * intros key Hk. simplify_eq. apply lookup_insert_ne.
        intros <-. apply Hk. unfold assigned_keys. set_solver.
    + exists u. by rewrite list_lookup_insert_ne.
Qed.

Lemma newUser_tidy e username email hashed : tidy (newUser e username email hashed).
Proof.
  split; rewrite newUser_lookup; simpl; [|done..].
  right. by exists 0.
Qed.

Lemma rewrite_of_tidy users users' :
  Forall tidy users → rewrite_of users users' → Forall tidy users'.
Proof.
  intros Hall Hrw.
  destruct Hrw
    as [e un em h|j stored patch Hj|j stored used limit delta newSize Hj Hused Hlimit _ Hgt].
  - apply Forall_app. split; [done|]. apply Forall_singleton, newUser_tidy.
  - apply Forall_insert; [done|].
    destruct (Forall_lookup_1 _ _ _ _ Hall Hj) as [Hu Hl Hh].
    split; rewrite apply_updates_other; try done; not_a_key.
  - apply Forall_insert; [done|].
    destruct (Forall_lookup_1 _ _ _ _ Hall Hj) as [Hu Hl Hh].
    split.
    + rewrite lookup_insert_eq.
      rewrite Hl in *. simplify_eq/=.
      destruct newSize as [n|]; [right|by left].
      exists n. split; [done|]. simpl in *. by apply Z.ltb_ge.
    + by rewrite lookup_insert_ne.
    + by rewrite lookup_insert_ne.
Qed.

Section Invariants.
Context `{B : Bcrypt} `{J : Jwt}.
Variable JWT_SECRET : option string.

Lemma register_effect e d req_body d' res :
  register JWT_SECRET e d req_body = (d', res) →
  d' = d ∨ ∃ users users',
    readUsers d = inr users ∧ d' = Contents (Users users') ∧ rewrite_of users users'.
Proof.
  unfold register, or_500, bcrypt_hash_js, writeUsers. intros Hr.
  destruct (readUsers d) as [err|users] eqn:Hread; handler_cases; eauto.
  right. eexists _, _. split; [done|]. split; [done|]. constructor.
Qed.

Lemma login_effect e d req_body : (login JWT_SECRET e d req_body).1 = d.
Proof. unfold login, or_500, bcrypt_compare_js. handler_cases. Qed.

Lemma update_profile_effect e d req_user req_body d' res :
  update_profile e d req_user req_body = (d', res) →
  d' = d ∨ ∃ users users',
    readUsers d = inr users ∧ d' = Contents (Users users') ∧ rewrite_of users users'.
Proof.
  unfold update_profile, or_500, writeUsers. intros Hr.
  destruct (readUsers d) as [err|users] eqn:Hread; handler_cases; eauto.
  right. eexists _, _. split; [done|]. split; [done|]. by constructor.
Qed.

Lemma upload_effect e d req_user req_body d' res :
  upload e d req_user req_body = Some (d', res) →
  d' = d ∨ ∃ users users',
    readUsers d = inr users ∧ d' = Contents (Users users') ∧ rewrite_of users users'.
Proof.
  unfold upload, writeUsers. intros Hr.
  destruct (readUsers d) as [err|users] eqn:Hread; handler_cases; eauto.
  right. eexists _, _. split; [done|]. split; [done|]. by econstructor.
Qed.

(** Every request leaves the file as it was or writes one of the three
    changes. *)
Lemma handle_effect e d r d' res :
  handle JWT_SECRET e d r = Some (d', res) →
  d' = d ∨ ∃ users users',
    readUsers d = inr users ∧ d' = Contents (Users users') ∧ rewrite_of users users'.
Proof.
  destruct r; simpl; intros Hr.
  - injection Hr as Hr. by eapply register_effect.
  - injection Hr as Hr. left. rewrite <- (login_effect e d req_body). by rewrite Hr.
  - destruct (authenticateToken _ _ _ _); simplify_eq; by left.
  - destruct (authenticateToken _ _ _ _); simplify_eq; by left.
  - destruct (authenticateToken _ _ _ _); simplify_eq; [by left|].
    by eapply update_profile_effect.
  - destruct (authenticateToken _ _ _ _); simplify_eq; [by left|].
    destruct (stats _ _); simplify_eq/=. by left.
  - destruct (authenticateToken _ _ _ _); simplify_eq; [by left|].
    by eapply upload_effect.
Qed.

(** The account the middleware puts in [req.user] is one of the file. *)
Lemma authenticateToken_user e d h req_user :
  authenticateToken JWT_SECRET e d h = inr req_user →
  ∃ users, readUsers d = inr users ∧ req_user ∈ users.
Proof.
  unfold authenticateToken. intros Hauth.
  destruct (readUsers d) as [err|users] eqn:Hread; handler_cases.
  exists users. split; [done|]. by eapply find_elem_of.
Qed.

(** Whatever error jwt.verify reports, the middleware answers 401 "Token
    inválido": an expired token and a forged one get the same answer. *)
Lemma authenticateToken_hides_the_reason e d h token err :
  bearer_token h = Some token →
  jwt_verify token (secret JWT_SECRET) (now e `div` 1000) = inl err →
  authenticateToken JWT_SECRET e d h = inl (error_response 401 "Token inválido").
Proof. intros Hb Hv. unfold authenticateToken. by rewrite Hb, Hv. Qed.

Lemma handle_keeps_tidy e d r d' res :
  tidy_disk d → handle JWT_SECRET e d r = Some (d', res) → tidy_disk d'.
Proof.
  intros Htidy Hr.
  destruct (handle_effect _ _ _ _ _ Hr) as [->|(users & users' & Hread & -> & Hrw)];
    [done|].
  intros us [= <-]. eapply rewrite_of_tidy; [|done]. by apply Htidy.
Qed.

Lemma reachable_tidy d : reachable JWT_SECRET d → tidy_disk d.
Proof.
  induction 1 as [|e d r d' res _ IH Hr].
  - intros users [= <-]. constructor.
  - by eapply handle_keeps_tidy.
Qed.

Lemma tidy_to_number u :
  tidy u →
  (∃ used, to_number (u !! "storageUsed") = Some used) ∧
  to_number (u !! "storageLimit") = Some (Fin storageLimit_1TB).
Proof.
  intros [[->|(n & -> & _)] -> _]; eauto.
Qed.

(** On a file the server produced, every request but an upload is within
    the model: no counter holds a string, an array or an object.  (An upload
    leaves the model when JavaScript rounds the size it reads.) *)
Lemma handle_total e d r :
  tidy_disk d →
  (∀ h req_body, r ≠ PostUpload h req_body) →
  is_Some (handle JWT_SECRET e d r).
Proof.
  intros Htidy Hupload. destruct r; simpl; try done.
  - by destruct (authenticateToken _ _ _ _).
  - by destruct (authenticateToken _ _ _ _).
  - by destruct (authenticateToken _ _ _ _).
  - destruct (authenticateToken _ _ _ _) as [|u] eqn:Hauth; [done|].
    apply authenticateToken_user in Hauth as (users & Hread & Hin).
    pose proof (proj1 (list.Forall_forall _ _) (Htidy _ Hread) _ Hin) as Hu.
    apply tidy_to_number in Hu as [[used Hused] Hlimit].
    unfold stats. rewrite Hused, Hlimit. simpl. eauto.
  - by destruct (Hupload authorization req_body).
Qed.

(** The user object of an answer is [userData] of a new account, of an
    account of the file, or of an updated account of the file. *)
Lemma handle_user_view e d r d' res u :
  handle JWT_SECRET e d r = Some (d', res) →
  body res !! "user" = Some (JObj u) →
  ∃ account, u = userData account ∧ (tidy_disk d → tidy account).
Proof.
  intros Hr Hu. destruct r; simpl in Hr.
  - unfold register, or_500, bcrypt_hash_js, writeUsers in Hr.
    destruct (readUsers d) as [err|users] eqn:Hread; handler_cases;
      unfold error_response in Hu; simplify_map_eq.
    eexists. split; [done|]. intros _. apply newUser_tidy.
  - unfold login, or_500, bcrypt_compare_js in Hr.
    destruct (readUsers d) as [err|users] eqn:Hread; handler_cases;
      unfold error_response in Hu; simplify_map_eq.
    eexists. split; [done|]. intros Htidy.
    eapply (proj1 (list.Forall_forall _ _) (Htidy _ Hread)).
    by eapply find_elem_of.
  - destruct (authenticateToken _ _ _ _) as [res'|req_user] eqn:Hauth; simplify_eq.
    + unfold authenticateToken in Hauth. handler_cases;
        unfold error_response in Hu; simplify_map_eq.
    + simpl in Hu. simplify_map_eq.
      apply authenticateToken_user in Hauth as (users & Hread & Hin).
      eexists. split; [done|]. intros Htidy.
      by eapply (proj1 (list.Forall_forall _ _) (Htidy _ Hread)).
  - destruct (authenticateToken _ _ _ _) as [res'|req_user] eqn:Hauth; simplify_eq.
    + unfold authenticateToken in Hauth. handler_cases;
        unfold error_response in Hu; simplify_map_eq.
    + simpl in Hu. simplify_map_eq.
      apply authenticateToken_user in Hauth as (users & Hread & Hin).
      eexists. split; [done|]. intros Htidy.
      by eapply (proj1 (list.Forall_forall _ _) (Htidy _ Hread)).
  - destruct (authenticateToken _ _ _ _) as [res'|req_user] eqn:Hauth; simplify_eq.
    + unfold authenticateToken in Hauth. handler_cases;
        unfold error_response in Hu; simplify_map_eq.
    + unfold update_profile, or_500, writeUsers in Hr.
      destruct (readUsers d) as [err|users] eqn:Hread; handler_cases;
        unfold error_response in Hu; simplify_map_eq.
      eexists. split; [done|]. intros Htidy.
      eapply (Forall_lookup_1 tidy (<[n := apply_updates req_body g]> users) n).
      * eapply rewrite_of_tidy; [by apply Htidy|]. by constructor.
      * apply list_lookup_insert_eq. by eapply lookup_lt_Some.
  - destruct (authenticateToken _ _ _ _) as [res'|req_user] eqn:Hauth; simplify_eq.
    + unfold authenticateToken in Hauth. handler_cases;
        unfold error_response in Hu; simplify_map_eq.
    + unfold stats in Hr. handler_cases; simplify_map_eq.
  - destruct (authenticateToken _ _ _ _) as [res'|req_user] eqn:Hauth; simplify_eq.
    + unfold authenticateToken in Hauth. handler_cases;
        unfold error_response in Hu; simplify_map_eq.
    + unfold upload, writeUsers in Hr.
      destruct (readUsers d) as [err|users] eqn:Hread; handler_cases;
        unfold error_response in Hu; simplify_map_eq.
Qed.

(** C5.  Whatever the request and the file, the user object of the answer
    (register, login, verify, get profile, update profile) has no password
    property; on a file the server produced it has no passwordHash property
    either. *)
Theorem answers_carry_no_password
    (e : env) (d : disk) (r : request) (d' : disk) (res : response) (u : obj) :
  handle JWT_SECRET e d r = Some (d', res) →
  body res !! "user" = Some (JObj u) →
  u !! "password" = None ∧
  (reachable JWT_SECRET d → u !! "passwordHash" = None).
Proof.
  intros Hr Hu.
  destruct (handle_user_view _ _ _ _ _ _ Hr Hu) as (account & -> & Htidy).
  split.
  - apply lookup_delete_eq.
  - intros Hreach. unfold userData. rewrite lookup_delete_ne by done.
    by apply Htidy, reachable_tidy.
Qed.

(** C10.  A request keeps every account of the file in its place with the
    storageLimit it had; on every file the server produced, starting from no
    file, each account's storageLimit is the 1099511627776 it was created
    with; so the limit GET /api/user/stats divides by is that number, not
    zero, and the route answers. *)
Theorem storageLimit_never_changes :
  (∀ e d r d' res users i u,
     handle JWT_SECRET e d r = Some (d', res) →
     readUsers d = inr users → users !! i = Some u →
     ∃ users' u',
       readUsers d' = inr users' ∧ users' !! i = Some u' ∧
       u' !! "storageLimit" = u !! "storageLimit") ∧
  (∀ d users u,
     reachable JWT_SECRET d → readUsers d = inr users → u ∈ users →
     u !! "storageLimit" = Some (JNum 1099511627776)) ∧
  (∀ e d h req_user,
     reachable JWT_SECRET d →
     authenticateToken JWT_SECRET e d h = inr req_user →
     to_number (req_user !! "storageLimit") = Some (Fin 1099511627776) ∧
     1099511627776 ≠ 0 ∧
     is_Some (stats e req_user)).
Proof.
  split; [|split].
  - intros e d r d' res users i u Hr Hread Hi.
    destruct (handle_effect _ _ _ _ _ Hr) as [->|(us & users' & Hread' & -> & Hrw)].
    + by exists users, u.
    + rewrite Hread in Hread'. injection Hread' as <-.
      destruct (rewrite_of_frame _ _ Hrw _ _ Hi) as (u' & Hi' & Hframe).
      exists users', u'. split; [done|]. split; [done|].
      apply Hframe. unfold assigned_keys. not_a_key.
  - intros d users u Hreach Hread Hin.
    apply reachable_tidy in Hreach.
    by destruct (proj1 (list.Forall_forall _ _) (Hreach _ Hread) _ Hin).
  - intros e d h req_user Hreach Hauth.
    apply reachable_tidy in Hreach.
    apply authenticateToken_user in Hauth as (users & Hread & Hin).
    pose proof (proj1 (list.Forall_forall _ _) (Hreach _ Hread) _ Hin) as Hu.
    apply tidy_to_number in Hu as [[used Hused] Hlimit].
    split; [done|]. split; [done|].
    unfold stats. rewrite Hused, Hlimit. simpl. eauto.
Qed.

(** X1.  On every file the server produced, each storageUsed is an
    integer that is at most the account's limit, or null: no write pushes a
    counter above the limit.  (Nothing keeps it from going below zero.) *)
Lemma storageUsed_stays_within_limit d users u :
  reachable JWT_SECRET d → readUsers d = inr users → u ∈ users →
  u !! "storageUsed" = Some JNull ∨
  ∃ n, u !! "storageUsed" = Some (JNum n) ∧ n ≤ 1099511627776.
Proof.
  intros Hreach Hread Hin. apply reachable_tidy in Hreach.
  by destruct (proj1 (list.Forall_forall _ _) (Hreach _ Hread) _ Hin).
Qed.

(** No request changes the id, the password, the creation date or the
    limit of an account that is in the file. *)
Lemma account_id_never_changes e d r d' res users i u :
  handle JWT_SECRET e d r = Some (d', res) →
  readUsers d = inr users → users !! i = Some u →
  ∃ users' u',
    readUsers d' = inr users' ∧ users' !! i = Some u' ∧
    u' !! "id" = u !! "id" ∧ u' !! "password" = u !! "password" ∧
    u' !! "createdAt" = u !! "createdAt" ∧
    u' !! "storageLimit" = u !! "storageLimit".
Proof.
  intros Hr Hread Hi.
  destruct (handle_effect _ _ _ _ _ Hr) as [->|(us & users' & Hread' & -> & Hrw)].
  - by exists users, u.
  - rewrite Hread in Hread'. injection Hread' as <-.
    destruct (rewrite_of_frame _ _ Hrw _ _ Hi) as (u' & Hi' & Hframe).
    exists users', u'. split; [done|]. split; [done|].
    repeat split; apply Hframe; unfold assigned_keys; not_a_key.
Qed.

End Invariants.

(** *** Tokens *)

Section Tokens.
Context `{J : Jwt}.
Variable JWT_SECRET : option string.

Lemma payload_lookup (user : obj) (iat exp : json) (key : string) :
  let payload :=
    with_property "userId" (user !! "id") (with_property "email" (user !! "email") ∅) in
  payload !! "iat" = None ∧ payload !! "exp" = None ∧
  (<["exp" := exp]> (<["iat" := iat]> payload)) !! "userId" = user !! "id" ∧
  (<["exp" := exp]> (<["iat" := iat]> payload)) !! "email" = user !! "email".
Proof.
  unfold with_property.
  destruct (user !! "id"), (user !! "email"); by simplify_map_eq.
Qed.

(** C6.  Under the contract [jwt_contract] of jsonwebtoken: the token the
    handlers issue for an account verifies, right after it was issued and
    at any time before the seven days are over, to claims whose userId and
    email are the account's id and email; from seven days after the issue
    on, it is refused as expired (TokenExpiredError); and a token that is no
    output of signing under the server's secret (altered or malformed) is
    refused as invalid (JsonWebTokenError). *)
Theorem token_round_trip_and_expiry (e : env) (user : obj) :
  jwt_contract J →
  (∃ decoded,
     jwt_verify (issueToken JWT_SECRET e user) (secret JWT_SECRET) (now e `div` 1000)
       = inr decoded ∧
     decoded !! "userId" = user !! "id" ∧ decoded !! "email" = user !! "email") ∧
  (∀ e', now e' `div` 1000 < now e `div` 1000 + 604800 →
     ∃ decoded,
       jwt_verify (issueToken JWT_SECRET e user) (secret JWT_SECRET) (now e' `div` 1000)
         = inr decoded ∧
       decoded !! "userId" = user !! "id" ∧ decoded !! "email" = user !! "email") ∧
  (∀ e', now e + 604800000 ≤ now e' →
     jwt_verify (issueToken JWT_SECRET e user) (secret JWT_SECRET) (now e' `div` 1000)
       = inl TokenExpiredError) ∧
  (∀ token clock,
     (∀ payload iat expiresIn,
        token ≠ jwt_sign payload (secret JWT_SECRET) iat expiresIn) →
     jwt_verify token (secret JWT_SECRET) clock = inl JsonWebTokenError).
Proof.
  intros [Hsigned Hforged].
  assert (∀ clock, clock < now e `div` 1000 + 604800 →
            ∃ decoded,
              jwt_verify (issueToken JWT_SECRET e user) (secret JWT_SECRET) clock
                = inr decoded ∧
              decoded !! "userId" = user !! "id" ∧
              decoded !! "email" = user !! "email") as Hvalid.
  { intros clock Hclock. unfold issueToken.
    destruct (payload_lookup user (JNum (now e `div` 1000))
                (JNum (now e `div` 1000 + seven_days)) "") as (Hiat & Hexp & Hid & Hemail).
    rewrite Hsigned by done.
    replace (clock <? now e `div` 1000 + seven_days) with true
      by (symmetry; apply Z.ltb_lt; unfold seven_days; lia).
    eauto. }
  split; [apply Hvalid; lia|]. split; [intros e'; apply Hvalid|].
  split; [|intros token clock; apply Hforged].
  intros e' Hlate. unfold issueToken.
  destruct (payload_lookup user JNull JNull "") as (Hiat & Hexp & _).
  rewrite Hsigned by done.
  replace (now e' `div` 1000 <? now e `div` 1000 + seven_days) with false; [done|].
  symmetry. apply Z.ltb_ge. unfold seven_days.
  transitivity ((now e + 604800 * 1000) `div` 1000).
  - rewrite Z.div_add by done. lia.
  - apply Z.div_le_mono; lia.
Qed.

End Tokens.

(** *** The stand-ins meet the contracts *)

Lemma json_size_elem l x : x ∈ l → (json_size x < json_size (JArr l))%nat.
Proof. simpl. induction 1; simpl; lia. Qed.

Lemma json_size_lookup (o : obj) k x :
  o !! k = Some x → (json_size x < json_size (JObj o))%nat.
Proof.
  intros Hk. simpl.
  rewrite <- (insert_delete_id o k x Hk).
  rewrite map_fold_insert_L; [lia|intros; lia|apply lookup_delete_eq].
Qed.

(** Induction on a JSON value with the hypothesis for every element of an
    array and every property of an object. *)
Lemma json_nested_ind (P : json → Prop) :
  P JNull → (∀ b, P (JBool b)) → (∀ n, P (JNum n)) → (∀ s, P (JStr s)) →
  (∀ l, Forall P l → P (JArr l)) →
  (∀ o, map_Forall (λ _, P) o → P (JObj o)) →
  ∀ v, P v.
Proof.
  intros H0 H1 H2 H3 H4 H5 v.
  assert (∀ n v, (json_size v < n)%nat → P v) as Hn;
    [|apply (Hn (S (json_size v))); lia].
  clear v. induction n as [|n IH]; intros v Hv; [lia|].
  destruct v as [| | | |l|o]; auto.
  - apply H4, list.Forall_forall. intros x Hx. apply IH.
    pose proof (json_size_elem _ _ Hx). lia.
  - apply H5. intros k x Hk. apply IH.
    pose proof (json_size_lookup _ _ _ Hk). lia.
Qed.

Lemma of_to_tree v : of_tree (to_tree v) = v.
Proof.
  induction v as [| | | |l IH|o IH] using json_nested_ind; try done.
  - change (JArr (of_tree <$> (to_tree <$> l)) = JArr l).
    f_equal. induction IH as [|x l Hx _ IHl]; [done|].
    rewrite !fmap_cons. by rewrite Hx, IHl.
  - cbn [to_tree of_tree]. f_equal.
    transitivity (list_to_map (M := obj)
                    (prod_map id of_tree <$> map_to_list (to_tree <$> o))).
    { f_equal. induction (map_to_list (to_tree <$> o)) as [|[k t] l IHl]; [done|].
      rewrite !fmap_cons. cbn [omap list_omap fst snd]. simpl. by rewrite <- IHl. }
    rewrite list_to_map_fmap, list_to_map_to_list, <- map_fmap_compose.
    apply map_eq. intros k. rewrite lookup_fmap.
    destruct (o !! k) as [x|] eqn:Hk; simpl; [|done].
    f_equal. by apply (IH k x).
Qed.

Lemma bits_to_pos_to_bits p : bits_to_pos (pos_to_bits p) = Some p.
Proof. induction p as [p IH|p IH|]; simpl; by rewrite ?IH. Qed.

Lemma demo_bcrypt_contract : bcrypt_contract demo_bcrypt.
Proof.
  intros data rounds salt. simpl. intros Heq.
  apply (f_equal String.length) in Heq. simpl in Heq. lia.
Qed.

#[local] Arguments to_tree : simpl never.
#[local] Arguments of_tree : simpl never.

Lemma demo_jwt_contract : jwt_contract demo_jwt.
Proof.
  split.
  - intros payload k iat ttl clock _ _. simpl. unfold demo_verify, demo_sign.
    simpl. rewrite bits_to_pos_to_bits. simpl. rewrite decode_encode.
    rewrite (of_to_tree (JObj payload)).
    by rewrite bool_decide_eq_true_2.
  - intros token k clock Hnot. simpl. unfold demo_verify.
    destruct token as [|c bits]; [done|].
    destruct (Ascii.eqb c "t"); [|done].
    destruct (bits_to_pos bits ≫= decode) as [[[[tree k'] iat] ttl]|]; [|done].
    destruct (of_tree tree) as [| | | | |payload]; try done.
    case_bool_decide as Hd; [|done].
    destruct Hd as [Hd ->]. by destruct (Hnot payload iat ttl).
Qed.

(** *** The handlers run on the example *)

Example ana_registered_file : ana_registered.1 = ana_file.
Proof. reflexivity. Qed.

Example ana_file_reachable :
  reachable (B := demo_bcrypt) (J := demo_jwt) None ana_file.
Proof.
  apply (reachable_step None clock0 no_file (PostRegister ana_request) _ ana_registered.2).
  - apply reachable_start.
  - reflexivity.
Qed.

(** C1 as the specification words it (409 whenever an account has the same
    email or username) fails on this request: ana is in the file and the
    request has her username and her email, but no password; the answer is
    the 400 of the validation, not the 409 of a duplicate. *)
Lemma register_duplicate_without_password :
  readUsers ana_file = inr [ana_account] ∧
  same_email_or_username
    (ana_again_request !! "email") (ana_again_request !! "username") ana_account = true ∧
  register (B := demo_bcrypt) (J := demo_jwt) None clock0 ana_file ana_again_request =
    (ana_file, error_response 400 "Todos os campos são obrigatórios") ∧
  status (error_response 400 "Todos os campos são obrigatórios") ≠ 409.
Proof. repeat split; [reflexivity..|discriminate]. Qed.

(** Registration on the example: a request with ana's
    username and email (and a password) is a duplicate; bob's is stored with
    the hash of his password. *)
Lemma register_duplicates_and_hash_witness :
  register (B := demo_bcrypt) (J := demo_jwt) None clock0 ana_file
    (<["password" := JStr "p3"]> ana_again_request) =
    (ana_file, error_response 409 "Usuário ou email já cadastrado") ∧
  ∃ user token,
    register (B := demo_bcrypt) (J := demo_jwt) None clock0 ana_file bob_request =
      (Contents (Users ([ana_account] ++ [user])),
       Response 201 (<["message" := JStr "Conta criada com sucesso!"]>
                       (<["token" := JStr token]>
                          {[ "user" := JObj (userData user) ]}))) ∧
    user !! "password" = Some (JStr "$p2") ∧
    user !! "password" ≠ Some (JStr "p2").
Proof.
  split.
  - destruct (register_duplicates_and_hash (B := demo_bcrypt) (J := demo_jwt)
                None clock0 ana_file (<["password" := JStr "p3"]> ana_again_request)
                [ana_account]) as [Hdup _]; [reflexivity..|].
    apply Hdup. exists ana_account.
    split; [apply list_elem_of_here|reflexivity].
  - destruct (register_duplicates_and_hash (B := demo_bcrypt) (J := demo_jwt)
                None clock0 ana_file bob_request [ana_account]) as [_ Hnew];
      [reflexivity..|].
    apply (Hnew "p2"); [|reflexivity..|].
    + intros u Hu. apply list_elem_of_singleton in Hu as ->. reflexivity.
    + exact demo_bcrypt_contract.
Defined.



(** The profile update on the example: the username
    of the body is taken, its password and storageLimit are not. *)
Lemma update_profile_copies_allowed_fields_witness :
  ∃ user,
    update_profile clock0 ana_file ana_account
      (<["username" := JStr "eve"]>
         (<["password" := JStr "x"]> {[ "storageLimit" := JNum 5 ]})) =
      (Contents (Users (<[0%nat := user]> [ana_account])),
       Response 200 (<["message" := JStr "Perfil atualizado com sucesso!"]>
                       {[ "user" := JObj (userData user) ]})) ∧
    user !! "username" = Some (JStr "eve") ∧
    user !! "email" = Some (JStr "ana@x.com") ∧
    user !! "password" = Some (JStr "$p1") ∧
    user !! "storageLimit" = Some (JNum 1099511627776).
Proof.
  destruct (update_profile_copies_allowed_fields clock0 ana_file ana_account
              (<["username" := JStr "eve"]>
                 (<["password" := JStr "x"]> {[ "storageLimit" := JNum 5 ]}))
              [ana_account] 0%nat ana_account)
    as (user & Hrun & Hkeys); [reflexivity..|].
  exists user. split; [exact Hrun|].
  rewrite !Hkeys. repeat split; reflexivity.
Defined.

(** The user object of the answer to ana's registration. *)
Lemma answers_carry_no_password_witness :
  userData ana_account !! "password" = None ∧
  (reachable (B := demo_bcrypt) (J := demo_jwt) None no_file →
   userData ana_account !! "passwordHash" = None).
Proof.
  refine (answers_carry_no_password (B := demo_bcrypt) (J := demo_jwt) None clock0
            no_file (PostRegister ana_request) ana_registered.1 ana_registered.2
            (userData ana_account) _ _);
    reflexivity.
Defined.

(** The token with the stand-in: ana's token verifies
    at once and is expired a week later. *)
Lemma token_round_trip_and_expiry_witness :
  (∃ decoded,
     jwt_verify (Jwt := demo_jwt)
       (issueToken (J := demo_jwt) None clock0 ana_account) (secret None)
       (now clock0 `div` 1000) = inr decoded ∧
     decoded !! "userId" = Some (JStr "1700000000123") ∧
     decoded !! "email" = Some (JStr "ana@x.com")) ∧
  jwt_verify (Jwt := demo_jwt)
    (issueToken (J := demo_jwt) None clock0 ana_account) (secret None)
    (now clock_week_later `div` 1000) = inl TokenExpiredError.
Proof.
  destruct (token_round_trip_and_expiry (J := demo_jwt) None clock0 ana_account
              demo_jwt_contract) as (Hnow & _ & Hlate & _).
  split.
  - destruct Hnow as (decoded & Hv & Hid & Hemail).
    exists decoded. split; [exact Hv|]. rewrite Hid, Hemail.
    split; [vm_compute; reflexivity|reflexivity].
  - apply Hlate. vm_compute. discriminate.
Defined.



(** C3, the request the handler gets wrong: ana registers and uploads a
    file whose size is -5.  The request passes the validation ([!size] is
    false for -5) and the quota check, the answer is 200, and her storageUsed
    in the file is -5.  A size that is no number ("abc") makes it NaN, which
    is written as null. *)
Example upload_of_negative_size_is_stored :
  (∃ d res,
     ana_uploads (JNum (-5)) = Some (d, res) ∧
     status res = 200 ∧
     stored_property d 0 "storageUsed" = Some (JNum (-5)) ∧
     reachable (B := demo_bcrypt) (J := demo_jwt) None d) ∧
  (∃ d res,
     ana_uploads (JStr "abc") = Some (d, res) ∧
     status res = 200 ∧
     stored_property d 0 "storageUsed" = Some JNull).
Proof.
  split.
  - assert (status_and_storageUsed <$> ana_uploads (JNum (-5))
            = Some (200, Some (JNum (-5)))) as Hneg by (vm_compute; reflexivity).
    destruct (ana_uploads (JNum (-5))) as [[d res]|] eqn:Hrun; [|discriminate].
    injection Hneg as Hstatus Hused.
    exists d, res. split; [reflexivity|]. split; [exact Hstatus|].
    split; [exact Hused|].
    unfold ana_uploads in Hrun.
    eapply reachable_step; [|exact Hrun].
    rewrite ana_registered_file. apply ana_file_reachable.
  - assert (status_and_storageUsed <$> ana_uploads (JStr "abc")
            = Some (200, Some JNull)) as Hnan by (vm_compute; reflexivity).
    destruct (ana_uploads (JStr "abc")) as [[d res]|] eqn:Hrun; [|discriminate].
    injection Hnan as Hstatus Hused.
    exists d, res. split; [reflexivity|]. split; [exact Hstatus|exact Hused].
Qed.

(** C9, the requests the handler gets wrong: ana and bob register while the
    clock reads the same millisecond.  Both get 201, both accounts are in
    the file, and both have the id "1700000000123". *)
Example same_millisecond_same_id :
  status ana_registered.2 = 201 ∧
  status bob_registered.2 = 201 ∧
  stored_property bob_registered.1 0 "username" = Some (JStr "ana") ∧
  stored_property bob_registered.1 1 "username" = Some (JStr "bob") ∧
  stored_property bob_registered.1 0 "id" = Some (JStr "1700000000123") ∧
  stored_property bob_registered.1 1 "id" = Some (JStr "1700000000123").
Proof. repeat split; vm_compute; reflexivity. Qed.

(** parseInt and the Authorization header on a few inputs.  The no-break
    space U+00A0 is the bytes 194 160 and the byte order mark U+FEFF is 239
    187 191; both are skipped.  A number from 10^21 on prints with an
    exponent and a long digit string is rounded: the model gives no result
    for either. *)
Example parseInt_examples :
  parseInt (JStr "2048") = Some (Fin 2048) ∧
  parseInt (JStr "  -12px") = Some (Fin (-12)) ∧
  parseInt (JStr "0x1F") = Some (Fin 31) ∧
  parseInt (JStr "1.5") = Some (Fin 1) ∧
  parseInt (JStr "abc") = Some NaN ∧
  parseInt (JStr "") = Some NaN ∧
  parseInt (JNum (-5)) = Some (Fin (-5)) ∧
  parseInt (JArr [JStr "7"; JNull]) = Some (Fin 7) ∧
  parseInt (JBool true) = Some NaN ∧
  parseInt (JStr (String (ascii_of_nat 194) (String (ascii_of_nat 160) "7")))
    = Some (Fin 7) ∧
  parseInt (JStr (String (ascii_of_nat 239)
                    (String (ascii_of_nat 187) (String (ascii_of_nat 191) " 7"))))
    = Some (Fin 7) ∧
  parseInt (JStr "9007199254740992") = Some (Fin 9007199254740992) ∧
  parseInt (JStr "-9007199254740993") = None ∧
  parseInt (JNum (10 ^ 21)) = None.
Proof. repeat split; reflexivity. Qed.

Example bearer_token_examples :
  bearer_token (Some "Bearer abc.def") = Some "abc.def" ∧
  bearer_token (Some "Bearer") = None ∧
  bearer_token (Some "Bearer ") = None ∧
  bearer_token (Some "") = None ∧
  bearer_token None = None.
Proof. repeat split; reflexivity. Qed.

(** The end-to-end run of the specification (section 8), with the
    stand-ins: ana registers and gets 201 with a user that has no password,
    storageUsed 0 and storageLimit 1099511627776; she logs in with her
    password and gets 200 and a token whose userId is her id; a wrong
    password gets 401 "Credenciais inválidas"; an upload past the limit
    gets 400 "Limite de armazenamento excedido" and leaves storageUsed at 0. *)
Example end_to_end_run :
  let user_of (res : response) : obj :=
    match body res !! "user" with Some (JObj u) => u | _ => ∅ end in
  let claims_of (res : response) : option json :=
    match body res !! "token" with
    | Some (JStr token) =>
        match jwt_verify (Jwt := demo_jwt) token (secret None) (now clock0 `div` 1000) with
        | inr decoded => decoded !! "userId"
        | inl _ => None
        end
    | _ => None
    end in
  let login_as (password : string) : response :=
    (login (B := demo_bcrypt) (J := demo_jwt) None clock0 ana_registered.1
       (<["email" := JStr "ana@x.com"]> {[ "password" := JStr password ]})).2 in
  status ana_registered.2 = 201 ∧
  user_of ana_registered.2 !! "password" = None ∧
  user_of ana_registered.2 !! "storageUsed" = Some (JNum 0) ∧
  user_of ana_registered.2 !! "storageLimit" = Some (JNum 1099511627776) ∧
  status (login_as "p1") = 200 ∧
  claims_of (login_as "p1") = user_of ana_registered.2 !! "id" ∧
  login_as "p9" = error_response 401 "Credenciais inválidas" ∧
  status_and_storageUsed <$> ana_uploads (JNum 1099511627777) = Some (400, Some (JNum 0)).
Proof. repeat split; vm_compute; reflexivity. Qed.

(** ** Further properties *)

(** Finds a status in a list of statuses. *)
Ltac status_listed :=
  simpl; repeat first [apply list_elem_of_here | apply list_elem_of_further].

(** *** What each handler does to the file *)

Lemma validated_fields (a b c : option json) :
  negb (truthy a) || negb (truthy b) || negb (truthy c) = false →
  truthy a = true ∧ truthy b = true ∧ truthy c = true.
Proof. by destruct (truthy a), (truthy b), (truthy c). Qed.

Lemma validated_pair (a b : option json) :
  negb (truthy a) || negb (truthy b) = false → truthy a = true ∧ truthy b = true.
Proof. by destruct (truthy a), (truthy b). Qed.

Section Outcomes.
Context `{B : Bcrypt} `{J : Jwt}.
Variable JWT_SECRET : option string.

(** POST /api/auth/register either answers an error and leaves the file, or
    appends the new account and answers 201 with it. *)
Lemma register_outcome e d req_body d' res :
  register JWT_SECRET e d req_body = (d', res) →
  (d' = d ∧ 400 ≤ status res) ∨
  ∃ users password,
    truthy (req_body !! "username") = true ∧
    truthy (req_body !! "email") = true ∧
    truthy (req_body !! "password") = true ∧
    readUsers d = inr users ∧
    find (same_email_or_username (req_body !! "email") (req_body !! "username")) users
      = None ∧
    req_body !! "password" = Some (JStr password) ∧
    d' = Contents (Users (users ++
           [newUser e (req_body !! "username") (req_body !! "email")
              (bcrypt_hash password 12 (salt e))])) ∧
    res = Response 201
            (<["message" := JStr "Conta criada com sucesso!"]>
               (<["token" :=
                    JStr (issueToken JWT_SECRET e
                            (newUser e (req_body !! "username") (req_body !! "email")
                               (bcrypt_hash password 12 (salt e))))]>
                  {[ "user" :=
                       JObj (userData
                               (newUser e (req_body !! "username") (req_body !! "email")
                                  (bcrypt_hash password 12 (salt e)))) ]})).
Proof.
  unfold register, or_500, bcrypt_hash_js, writeUsers. intros Hr.
  destruct (negb (truthy (req_body !! "username")) || _ || _) eqn:Hvalid.
  { left. by simplify_eq. }
  apply validated_fields in Hvalid as (Hu & He & Hp).
  destruct (readUsers d) as [err|users] eqn:Hread; handler_cases;
    try (left; split; [done|simpl; lia]).
  right. by eexists _, _.
Qed.

End Outcomes.

(** *** What one request does *)

Section Requests.
Context `{B : Bcrypt} `{J : Jwt}.
Variable JWT_SECRET : option string.

(** The middleware lets a request through with an account, or answers 401
    or 500 with an error message and nothing else. *)
Lemma authenticateToken_rejects e d h res :
  authenticateToken JWT_SECRET e d h = inl res →
  ∃ code message, res = error_response code message ∧ (code = 401 ∨ code = 500).
Proof.
  unfold authenticateToken. intros Hauth.
  handler_cases; eauto.
Qed.

Lemma login_outcome e d req_body d' res :
  login JWT_SECRET e d req_body = (d', res) →
  d' = d ∧ (400 ≤ status res ∨ status res = 200).
Proof.
  unfold login, or_500, bcrypt_compare_js. intros Hr.
  destruct (readUsers d) as [err|users] eqn:Hread; handler_cases;
    (split; [done|]); first [by right | left; simpl; lia].
Qed.

(** PUT /api/user/profile either answers an error and leaves the file, or
    writes the updated account in the place of the first account that has
    the id of [req.user] and answers 200 with it. *)
Lemma update_profile_outcome e d req_user req_body d' res :
  update_profile e d req_user req_body = (d', res) →
  (d' = d ∧ 400 ≤ status res) ∨
  ∃ users userIndex stored,
    readUsers d = inr users ∧
    findIndex (λ u, strict_eq (u !! "id") (req_user !! "id")) users = Some userIndex ∧
    users !! userIndex = Some stored ∧
    d' = Contents (Users (<[userIndex := apply_updates req_body stored]> users)) ∧
    res = Response 200
            (<["message" := JStr "Perfil atualizado com sucesso!"]>
               {[ "user" := JObj (userData (apply_updates req_body stored)) ]}).
Proof.
  unfold update_profile, or_500, writeUsers. intros Hr.
  destruct (readUsers d) as [err|users] eqn:Hread; handler_cases;
    try (left; split; [done|simpl; lia]).
  right. by eexists _, _, _.
Qed.

(** POST /api/files/upload either answers an error and leaves the file, or
    writes the new counter of the first account that has the id of
    [req.user] and answers 200. *)
Lemma upload_outcome e d req_user req_body d' res :
  upload e d req_user req_body = Some (d', res) →
  (d' = d ∧ 400 ≤ status res) ∨
  ∃ users userIndex stored used limit delta newSize,
    readUsers d = inr users ∧
    findIndex (λ u, strict_eq (u !! "id") (req_user !! "id")) users = Some userIndex ∧
    users !! userIndex = Some stored ∧
    to_number (stored !! "storageUsed") = Some used ∧
    to_number (stored !! "storageLimit") = Some limit ∧
    parseInt_property (req_body !! "size") = Some delta ∧
    js_add used delta = Some newSize ∧
    js_gt newSize limit = false ∧
    d' = Contents (Users (<[userIndex :=
            <["storageUsed" := num_to_json newSize]> stored]> users)) ∧
    status res = 200.
Proof.
  unfold upload, writeUsers. intros Hr.
  destruct (readUsers d) as [err|users] eqn:Hread; handler_cases;
    try (left; split; [done|simpl; lia]).
  right. by eexists _, _, _, _, _, _, _.
Qed.

(** Every request leaves the file as it was, or answers 200 or 201. *)
Lemma handle_outcome e d r d' res :
  handle JWT_SECRET e d r = Some (d', res) →
  d' = d ∨ status res = 200 ∨ status res = 201.
Proof.
  destruct r; simpl; intros Hr.
  - injection Hr as Hr. apply register_outcome in Hr as [[-> _]|Hok]; [by left|].
    destruct Hok as (users & password & _ & _ & _ & _ & _ & _ & _ & ->). by right; right.
  - injection Hr as Hr. apply login_outcome in Hr as [-> _]. by left.
  - destruct (authenticateToken _ _ _ _); simplify_eq; by left.
  - destruct (authenticateToken _ _ _ _); simplify_eq; by left.
  - destruct (authenticateToken _ _ _ _); simplify_eq; [by left|].
    apply update_profile_outcome in Hr as [[-> _]|Hok]; [by left|].
    destruct Hok as (users & i & stored & _ & _ & _ & _ & ->). by right; left.
  - destruct (authenticateToken _ _ _ _); simplify_eq; [by left|].
    destruct (stats _ _); simplify_eq/=. by left.
  - destruct (authenticateToken _ _ _ _); simplify_eq; [by left|].
    apply upload_outcome in Hr as [[-> _]|Hok]; [by left|].
    destruct Hok as (users & i & stored & used & limit & delta & newSize & Hok).
    right; left. apply Hok.
Qed.

(** X2.  A request that is answered with an error leaves users.json exactly
    as it was, and so does every login, token verification, profile read
    and statistics request, whatever its answer. *)
Theorem only_successful_writes (e : env) (d : disk) (r : request) (d' : disk)
    (res : response) :
  handle JWT_SECRET e d r = Some (d', res) →
  (status res ≠ 200 → status res ≠ 201 → d' = d) ∧
  (read_only r = true → d' = d).
Proof.
  intros Hr. split.
  - intros H200 H201. by destruct (handle_outcome _ _ _ _ _ Hr) as [?|[?|?]].
  - destruct r; simpl in *; try done; intros _.
    + injection Hr as Hr. by apply login_outcome in Hr as [-> _].
    + by destruct (authenticateToken _ _ _ _); simplify_eq.
    + by destruct (authenticateToken _ _ _ _); simplify_eq.
    + destruct (authenticateToken _ _ _ _); simplify_eq; [done|].
      by destruct (stats _ _); simplify_eq/=.
Qed.

Lemma strict_eq_true a b : strict_eq a b = true → a = b.
Proof.
  destruct a as [[]|], b as [[]|]; simpl; try done; intros Heq.
  - by apply Bool.eqb_prop in Heq as ->.
  - by apply Z.eqb_eq in Heq as ->.
  - by apply String.eqb_eq in Heq as ->.
Qed.

Lemma find_findIndex {A : Type} (p : A → bool) (l : list A) (x : A) :
  find p l = Some x → ∃ i, findIndex p l = Some i ∧ l !! i = Some x.
Proof.
  induction l as [|y l IH]; simpl; [done|].
  destruct (p y); intros Hx.
  - exists 0%nat. by simplify_eq.
  - destruct (IH Hx) as (i & -> & Hi). by exists (S i).
Qed.

Lemma findIndex_ext {A : Type} (p q : A → bool) (l : list A) :
  (∀ x, p x = q x) → findIndex p l = findIndex q l.
Proof. intros Hpq. induction l as [|y l IH]; simpl; [done|]. by rewrite Hpq, IH. Qed.

(** The account the middleware puts in [req.user] is the one the handlers
    find again by its id. *)
Lemma authenticateToken_index e d h req_user :
  authenticateToken JWT_SECRET e d h = inr req_user →
  ∃ users i,
    readUsers d = inr users ∧
    findIndex (λ u, strict_eq (u !! "id") (req_user !! "id")) users = Some i ∧
    users !! i = Some req_user.
Proof.
  unfold authenticateToken. intros Hauth.
  destruct (bearer_token h); [|done].
  destruct (jwt_verify _ _ _) as [|decoded]; [done|].
  destruct (readUsers d) as [|users]; [done|].
  destruct (find _ users) as [user|] eqn:Hfind; [|done]. simplify_eq.
  destruct (find_elem_of _ _ _ Hfind) as [_ Hid%strict_eq_true].
  apply find_findIndex in Hfind as (i & Hi & Hu).
  exists users, i. split_and!; [done| |done].
  rewrite <-Hi. apply findIndex_ext. intros u. by rewrite Hid.
Qed.

(** What one request does: nothing to the file; or a registration appends
    the new account; or a profile update or an upload replaces the first
    account that has the id of the authenticated account, keeping every
    property outside [assigned_keys]. *)
Lemma handle_cases e d r d' res :
  handle JWT_SECRET e d r = Some (d', res) →
  (d' = d ∧ status res ≠ 201) ∨
  (∃ req_body users password,
     r = PostRegister req_body ∧ readUsers d = inr users ∧
     find (same_email_or_username (req_body !! "email") (req_body !! "username")) users
       = None ∧
     d' = Contents (Users (users ++
            [newUser e (req_body !! "username") (req_body !! "email")
               (bcrypt_hash password 12 (salt e))])) ∧
     status res = 201) ∨
  (∃ h req_user users userIndex stored stored',
     authorization_of r = Some h ∧
     authenticateToken JWT_SECRET e d h = inr req_user ∧
     readUsers d = inr users ∧
     findIndex (λ u, strict_eq (u !! "id") (req_user !! "id")) users = Some userIndex ∧
     users !! userIndex = Some stored ∧
     (∀ key, key ∉ assigned_keys → stored' !! key = stored !! key) ∧
     d' = Contents (Users (<[userIndex := stored']> users)) ∧
     status res = 200).
Proof.
  destruct r; simpl; intros Hr.
  - injection Hr as Hr.
    apply register_outcome in Hr as [[-> ?]|Hok]; [left; split; [done|lia]|].
    destruct Hok as (users & password & _ & _ & _ & Hread & Hfind & _ & -> & ->).
    right; left. by eexists _, _, _.
  - injection Hr as Hr. apply login_outcome in Hr as [-> ?]. left. split; [done|lia].
  - left. destruct (authenticateToken _ _ _ _) as [rej|] eqn:Hauth; simplify_eq/=; [|done].
    apply authenticateToken_rejects in Hauth as (code & msg & -> & ?). simpl. split; [done|lia].
  - left. destruct (authenticateToken _ _ _ _) as [rej|] eqn:Hauth; simplify_eq/=; [|done].
    apply authenticateToken_rejects in Hauth as (code & msg & -> & ?). simpl. split; [done|lia].
  - destruct (authenticateToken _ _ _ _) as [rej|req_user] eqn:Hauth; simplify_eq/=.
    { left. apply authenticateToken_rejects in Hauth as (code & msg & -> & ?).
      simpl. split; [done|lia]. }
    apply update_profile_outcome in Hr as [[-> ?]|Hok]; [left; split; [done|lia]|].
    destruct Hok as (users & i & stored & Hread & Hi & Hu & -> & ->).
    right; right.
    exists authorization, req_user, users, i, stored, (apply_updates req_body stored).
    split_and!; try done.
    intros key Hkey. by apply apply_updates_other, not_assigned_not_allowed.
  - left. destruct (authenticateToken _ _ _ _) as [rej|req_user] eqn:Hauth; simplify_eq/=.
    { apply authenticateToken_rejects in Hauth as (code & msg & -> & ?).
      simpl. split; [done|lia]. }
    unfold stats in Hr. handler_cases.
  - destruct (authenticateToken _ _ _ _) as [rej|req_user] eqn:Hauth; simplify_eq/=.
    { left. apply authenticateToken_rejects in Hauth as (code & msg & -> & ?).
      simpl. split; [done|lia]. }
    apply upload_outcome in Hr as [[-> ?]|Hok]; [left; split; [done|lia]|].
    destruct Hok as (users & i & stored & used & limit & delta & newSize & Hread & Hi & Hu
                     & _ & _ & _ & _ & _ & -> & Hs).
    right; right.
    exists authorization, req_user, users, i, stored,
      (<["storageUsed" := num_to_json newSize]> stored).
    split_and!; try done.
    intros key Hkey. apply lookup_insert_ne. intros <-. apply Hkey. set_solver.
Qed.

(** X3.  No request removes or moves an account, and none changes a property
    of an account other than username, email, settings and storageUsed: the
    id, the password hash, the limit, createdAt and isActive stay as
    registration wrote them. *)
Theorem accounts_keep_their_place_and_fixed_fields
    (e : env) (d : disk) (r : request) (d' : disk) (res : response)
    (users : list obj) (i : nat) (u : obj) :
  handle JWT_SECRET e d r = Some (d', res) →
  readUsers d = inr users → users !! i = Some u →
  ∃ users' u',
    readUsers d' = inr users' ∧ users' !! i = Some u' ∧
    ∀ key, key ∉ ["username"; "email"; "settings"; "storageUsed"] →
           u' !! key = u !! key.
Proof.
  intros Hr Hread Hi.
  destruct (handle_effect _ _ _ _ _ _ Hr) as [->|(users0 & users' & Hread' & -> & Hrw)].
  { by exists users, u. }
  rewrite Hread in Hread'. injection Hread' as <-.
  destruct (rewrite_of_frame _ _ Hrw _ _ Hi) as (u' & Hi' & Hframe).
  by exists users', u'.
Qed.

(** X4.  The number of accounts changes only by a registration that answers
    201, which appends exactly one account after the existing ones; every
    other request, and every registration that fails, leaves it. *)
Theorem accounts_are_only_added
    (e : env) (d : disk) (r : request) (d' : disk) (res : response)
    (users : list obj) :
  handle JWT_SECRET e d r = Some (d', res) →
  readUsers d = inr users →
  ∃ users',
    readUsers d' = inr users' ∧
    (status res = 201 →
       ∃ req_body user, r = PostRegister req_body ∧ users' = users ++ [user]) ∧
    (status res ≠ 201 → length users' = length users).
Proof.
  intros Hr Hread.
  destruct (handle_cases _ _ _ _ _ Hr) as [[-> Hs]|[Hreg|Hput]].
  - exists users. by split_and!.
  - destruct Hreg as (req_body & users0 & password & -> & Hread' & _ & -> & Hs).
    rewrite Hread in Hread'. injection Hread' as <-.
    eexists. split_and!; [done| |done]. intros _. by eexists _, _.
  - destruct Hput as (h & req_user & users0 & k & stored & stored' & _ & _ & Hread'
                      & _ & _ & _ & -> & Hs).
    rewrite Hread in Hread'. injection Hread' as <-.
    eexists. split_and!; [done|lia|]. intros _. by rewrite length_insert.
Qed.

(** X5.  A request changes an existing account only if it carries a token
    that the middleware accepted for an account with the same id; a
    registration, a login and a rejected request change no existing
    account. *)
Theorem requests_change_only_the_callers_account
    (e : env) (d : disk) (r : request) (d' : disk) (res : response)
    (users : list obj) (i : nat) (u : obj) :
  handle JWT_SECRET e d r = Some (d', res) →
  readUsers d = inr users → users !! i = Some u →
  ∃ users',
    readUsers d' = inr users' ∧
    (users' !! i = Some u ∨
     ∃ h req_user,
       authorization_of r = Some h ∧
       authenticateToken JWT_SECRET e d h = inr req_user ∧
       u !! "id" = req_user !! "id").
Proof.
  intros Hr Hread Hi.
  destruct (handle_cases _ _ _ _ _ Hr) as [[-> Hs]|[Hreg|Hput]].
  - exists users. split; [done|by left].
  - destruct Hreg as (req_body & users0 & password & -> & Hread' & _ & -> & Hs).
    rewrite Hread in Hread'. injection Hread' as <-.
    eexists. split; [done|]. left. by apply lookup_app_l_Some.
  - destruct Hput as (h & req_user & users0 & k & stored & stored' & Hh & Hauth & Hread'
                      & Hk & Hstored & _ & -> & Hs).
    rewrite Hread in Hread'. injection Hread' as <-.
    eexists. split; [done|].
    destruct (decide (k = i)) as [->|Hne].
    + right. exists h, req_user. split_and!; [done..|].
      apply findIndex_Some in Hk as (x & Hx & Hid%strict_eq_true). congruence.
    + left. by rewrite list_lookup_insert_ne.
Qed.

Lemma account_ids_insert (users : list obj) (i : nat) (u u' : obj) :
  users !! i = Some u → u' !! "id" = u !! "id" →
  account_ids (<[i := u']> users) = account_ids users.
Proof.
  intros Hi Hid. unfold account_ids. rewrite list_fmap_insert.
  apply list_insert_id. by rewrite list_lookup_fmap, Hi, Hid.
Qed.

(** X6.  The ids of the accounts stay pairwise different as long as the
    decimal of the clock of a registration is not yet the id of an account
    (line 65 mints the id from [Date.now()] and never checks it). *)
Theorem fresh_clock_keeps_ids_unique
    (e : env) (d : disk) (r : request) (d' : disk) (res : response)
    (users : list obj) :
  handle JWT_SECRET e d r = Some (d', res) →
  readUsers d = inr users →
  NoDup (account_ids users) →
  Some (JStr (pretty (now e))) ∉ account_ids users →
  ∃ users', readUsers d' = inr users' ∧ NoDup (account_ids users').
Proof.
  intros Hr Hread Hnodup Hfresh.
  destruct (handle_cases _ _ _ _ _ Hr) as [[-> Hs]|[Hreg|Hput]].
  - by exists users.
  - destruct Hreg as (req_body & users0 & password & -> & Hread' & _ & -> & Hs).
    rewrite Hread in Hread'. injection Hread' as <-.
    eexists. split; [done|].
    unfold account_ids. rewrite fmap_app. simpl.
    rewrite newUser_lookup. simpl.
    apply list.NoDup_app. split_and!; [done| |apply NoDup_singleton].
    intros x Hx ->%list_elem_of_singleton. by apply Hfresh.
  - destruct Hput as (h & req_user & users0 & k & stored & stored' & _ & _ & Hread'
                      & _ & Hstored & Hframe & -> & Hs).
    rewrite Hread in Hread'. injection Hread' as <-.
    eexists. split; [done|].
    rewrite (account_ids_insert _ _ stored); [done..|].
    apply Hframe. not_a_key.
Qed.

(** What the middleware has checked when it lets a request through. *)
Lemma authenticateToken_accepts e d h req_user :
  authenticateToken JWT_SECRET e d h = inr req_user →
  ∃ token decoded users,
    bearer_token h = Some token ∧
    jwt_verify token (secret JWT_SECRET) (now e `div` 1000) = inr decoded ∧
    readUsers d = inr users ∧
    find (λ u, strict_eq (u !! "id") (decoded !! "userId")) users = Some req_user.
Proof.
  unfold authenticateToken. intros Hauth.
  destruct (bearer_token h) as [token|]; [|done].
  destruct (jwt_verify _ _ _) as [|decoded] eqn:Hverify; [done|].
  destruct (readUsers d) as [|users]; [done|].
  destruct (find _ users) as [user|] eqn:Hfind; [|done]. simplify_eq.
  by exists token, decoded, users.
Qed.

(** X7.  A request to a protected route is answered by the middleware with
    an error 401 or 500 that leaves the file, unless its Authorization
    header carries a token that jwt.verify accepts under the server's secret
    and whose userId is the id of an account of the file. *)
Theorem protected_routes_need_a_valid_token
    (e : env) (d : disk) (r : request) (h : option string) (d' : disk)
    (res : response) :
  authorization_of r = Some h →
  handle JWT_SECRET e d r = Some (d', res) →
  (∃ token decoded users account,
     bearer_token h = Some token ∧
     jwt_verify token (secret JWT_SECRET) (now e `div` 1000) = inr decoded ∧
     readUsers d = inr users ∧ account ∈ users ∧
     account !! "id" = decoded !! "userId") ∨
  (d' = d ∧
   ∃ code message, res = error_response code message ∧ (code = 401 ∨ code = 500)).
Proof.
  intros Hh Hr.
  destruct (authenticateToken JWT_SECRET e d h) as [rej|req_user] eqn:Hauth.
  - right. destruct r; simplify_eq/=; rewrite Hauth in Hr; simplify_eq;
      (split; [done|]); by eapply authenticateToken_rejects.
  - left. apply authenticateToken_accepts in Hauth
      as (token & decoded & users & Htoken & Hverify & Hread & Hfind).
    apply find_elem_of in Hfind as [Hin Hid%strict_eq_true].
    by exists token, decoded, users, req_user.
Qed.

(** X8.  Every answer has status 200, 201, 400, 401, 409 or 500, and so
    never 404: with the file as the middleware read it, the account that the
    middleware found is found again by its id, and the "Usuário não
    encontrado" branches of the profile update (lines 196-198) and of the
    upload (lines 247-249) are never taken. *)
Theorem handle_never_answers_404
    (e : env) (d : disk) (r : request) (d' : disk) (res : response) :
  handle JWT_SECRET e d r = Some (d', res) →
  status res ∈ [200; 201; 400; 401; 409; 500].
Proof.
  assert (∀ h rej, authenticateToken JWT_SECRET e d h = inl rej →
                   status rej ∈ [200; 201; 400; 401; 409; 500]) as Hrejected.
  { intros h rej (code & msg & -> & [->| ->])%authenticateToken_rejects;
      status_listed. }
  destruct r; simpl; intros Hr.
  - unfold register, or_500, bcrypt_hash_js, writeUsers in Hr.
    destruct (readUsers d) as [err|users] eqn:Hread; handler_cases; status_listed.
  - unfold login, or_500, bcrypt_compare_js in Hr.
    destruct (readUsers d) as [err|users] eqn:Hread; handler_cases; status_listed.
  - destruct (authenticateToken _ _ _ _) as [rej|req_user] eqn:Hauth; simplify_eq/=;
      [by eapply Hrejected|status_listed].
  - destruct (authenticateToken _ _ _ _) as [rej|req_user] eqn:Hauth; simplify_eq/=;
      [by eapply Hrejected|status_listed].
  - destruct (authenticateToken _ _ _ _) as [rej|req_user] eqn:Hauth; simplify_eq/=;
      [by eapply Hrejected|].
    apply authenticateToken_index in Hauth as (users & i & Hread & Hi & Hu).
    unfold update_profile, or_500, writeUsers in Hr. rewrite Hread in Hr. simpl in Hr.
    unfold mbind, exn_bind in Hr. rewrite Hi, Hu in Hr. handler_cases; status_listed.
  - destruct (authenticateToken _ _ _ _) as [rej|req_user] eqn:Hauth; simplify_eq/=;
      [by eapply Hrejected|].
    unfold stats in Hr. handler_cases; status_listed.
  - destruct (authenticateToken _ _ _ _) as [rej|req_user] eqn:Hauth; simplify_eq/=;
      [by eapply Hrejected|].
    apply authenticateToken_index in Hauth as (users & i & Hread & Hi & Hu).
    unfold upload, writeUsers in Hr. rewrite Hread, Hi, Hu in Hr.
    handler_cases; status_listed.
Qed.

(** X9.  When the middleware lets a profile update through and the file can
    be written, the account that is rewritten is the authenticated account
    itself, in its own place, and the answer shows it after the update. *)
Theorem profile_update_reaches_the_caller
    (e : env) (d : disk) (h : option string) (req_body req_user : obj) :
  authenticateToken JWT_SECRET e d h = inr req_user →
  write_error e = None →
  ∃ users i,
    readUsers d = inr users ∧ users !! i = Some req_user ∧
    handle JWT_SECRET e d (PutProfile h req_body) =
      Some (Contents (Users (<[i := apply_updates req_body req_user]> users)),
            Response 200
              (<["message" := JStr "Perfil atualizado com sucesso!"]>
                 {[ "user" := JObj (userData (apply_updates req_body req_user)) ]})).
Proof.
  intros Hauth Hwrite. simpl. rewrite Hauth.
  apply authenticateToken_index in Hauth as (users & i & Hread & Hi & Hu).
  exists users, i. split_and!; [done..|].
  unfold update_profile, or_500, writeUsers. rewrite Hread. simpl.
  unfold mbind, exn_bind. by rewrite Hi, Hu, Hwrite.
Qed.

(** X10.  A login is answered 200 only when the body's password is a string
    that bcrypt.compare accepts against the stored hash of the first account
    with the body's email; the answer then carries a token for that account
    and the account without its password, and the file is not written. *)
Theorem login_succeeds_only_with_the_stored_hash
    (e : env) (d : disk) (req_body : obj) (d' : disk) (res : response) :
  login JWT_SECRET e d req_body = (d', res) →
  status res = 200 →
  d' = d ∧
  ∃ users user password hash,
    readUsers d = inr users ∧
    find (λ u, strict_eq (u !! "email") (req_body !! "email")) users = Some user ∧
    req_body !! "password" = Some (JStr password) ∧
    user !! "password" = Some (JStr hash) ∧
    bcrypt_compare password hash = true ∧
    res = Response 200
            (<["message" := JStr "Login bem-sucedido!"]>
               (<["token" := JStr (issueToken JWT_SECRET e user)]>
                  {[ "user" := JObj (userData user) ]})).
Proof.
  unfold login, or_500, bcrypt_compare_js. intros Hr Hs.
  destruct (readUsers d) as [err|users] eqn:Hread; handler_cases.
  split; [done|]. eexists _, _, _, _. split_and!; try done.
  by apply negb_false_iff.
Qed.

Lemma find_None_elem_of {A : Type} (p : A → bool) (l : list A) (x : A) :
  find p l = None → x ∈ l → p x = false.
Proof.
  induction l as [|y l IH]; simpl; [by intros _ ?%elem_of_nil|].
  destruct (p y) eqn:Hy; [done|].
  intros Hfind [->|Hin]%elem_of_cons; [done|]. by apply IH.
Qed.

Lemma find_app_new {A : Type} (p : A → bool) (l : list A) (x : A) :
  (∀ y, y ∈ l → p y = false) → p x = true → find p (l ++ [x]) = Some x.
Proof.
  intros Hl Hx. induction l as [|y l IH]; simpl; [by rewrite Hx|].
  rewrite (Hl y) by left. apply IH. intros z Hz. apply Hl. by right.
Qed.

(** X11.  Under the contract that bcrypt.compare accepts a password against
    its own hash, an account registered with a string email can log in at
    any later time with that email and password: the login answers 200 with
    the account that the registration answered, and writes nothing. *)
Theorem registered_account_can_log_in
    (e e' : env) (d : disk) (req_body login_body : obj) (d' : disk)
    (res : response) (email : string) :
  bcrypt_compare_contract B →
  register JWT_SECRET e d req_body = (d', res) →
  status res = 201 →
  req_body !! "email" = Some (JStr email) →
  login_body !! "email" = req_body !! "email" →
  login_body !! "password" = req_body !! "password" →
  ∃ account,
    body res !! "user" = Some (JObj (userData account)) ∧
    login JWT_SECRET e' d' login_body =
      (d', Response 200
             (<["message" := JStr "Login bem-sucedido!"]>
                (<["token" := JStr (issueToken JWT_SECRET e' account)]>
                   {[ "user" := JObj (userData account) ]}))).
Proof.
  intros Hcompare Hreg Hs Hemail Hle Hlp.
  apply register_outcome in Hreg as [[_ ?]|Hok]; [lia|].
  destruct Hok as (users & password & _ & He & Hp & Hread & Hfind & Hpw & -> & ->).
  eexists. split; [by simplify_map_eq|].
  unfold login. rewrite Hle, Hlp, He, Hp. simpl.
  rewrite (find_app_new _ users
             (newUser e (req_body !! "username") (req_body !! "email")
                (bcrypt_hash password 12 (salt e)))).
  - rewrite Hpw, newUser_lookup. simpl. unfold mbind, exn_bind, mret, exn_ret. simpl.
    rewrite Hcompare. simpl. by rewrite ?Hemail.
  - intros u Hu. pose proof (find_None_elem_of _ _ _ Hfind Hu) as Hne.
    unfold same_email_or_username in Hne. by apply orb_false_iff in Hne as [? _].
  - rewrite newUser_lookup. simpl. rewrite Hemail. simpl. apply String.eqb_refl.
Qed.

End Requests.

(** *** The Authorization header *)

Lemma split_space_word (s : string) : no_space s = true → split_space s = [s].
Proof.
  induction s as [|c s IH]; simpl; [done|].
  intros [Hc Hs]%andb_true_iff. apply negb_true_iff in Hc. by rewrite Hc, IH.
Qed.

Lemma split_space_first (s rest : string) :
  no_space s = true → split_space (s +:+ " " +:+ rest) = s :: split_space rest.
Proof.
  induction s as [|c s IH]; simpl; [done|].
  intros [Hc Hs]%andb_true_iff. apply negb_true_iff in Hc. by rewrite Hc, IH.
Qed.

Lemma bearer_token_second_word (scheme token : string) :
  no_space scheme = true → no_space token = true → token ≠ "" →
  bearer_token (Some (scheme +:+ " " +:+ token)) = Some token.
Proof.
  intros Hscheme Htoken Hne%String.eqb_neq. unfold bearer_token.
  rewrite split_space_first, split_space_word by done. simpl. by rewrite Hne.
Qed.

(** X12.  The middleware takes the second word of the Authorization header
    as the token, whatever the first word is (it never looks for "Bearer")
    and whatever follows a second space. *)
Theorem bearer_token_ignores_the_scheme (scheme token : string) :
  no_space scheme = true → no_space token = true → token ≠ "" →
  bearer_token (Some (scheme +:+ " " +:+ token)) = Some token ∧
  ∀ rest, bearer_token (Some (scheme +:+ " " +:+ token +:+ " " +:+ rest)) = Some token.
Proof.
  intros Hscheme Htoken Hne. split; [by apply bearer_token_second_word|].
  intros rest. apply String.eqb_neq in Hne. unfold bearer_token.
  rewrite !split_space_first by done. simpl. by rewrite Hne.
Qed.

(** *** Sessions *)

Section Sessions.
Context `{B : Bcrypt} `{J : Jwt}.
Variable JWT_SECRET : option string.

(** X13.  Under the contract of jsonwebtoken, the token that a registration
    answers opens the profile route for seven days, sent as
    [Bearer <token>]: the route answers 200 with the account that the
    registration answered.  This needs the id minted from the clock to be
    new: otherwise the middleware finds the older account with that id. *)
Theorem registration_token_opens_the_profile
    (e e' : env) (d : disk) (req_body : obj) (d' : disk) (res : response)
    (users : list obj) (token : string) :
  jwt_contract J →
  register JWT_SECRET e d req_body = (d', res) →
  status res = 201 →
  readUsers d = inr users →
  Some (JStr (pretty (now e))) ∉ account_ids users →
  body res !! "token" = Some (JStr token) →
  no_space token = true → token ≠ "" →
  now e' `div` 1000 < now e `div` 1000 + 604800 →
  ∃ account,
    body res !! "user" = Some (JObj (userData account)) ∧
    handle JWT_SECRET e' d' (GetProfile (Some ("Bearer " +:+ token))) =
      Some (d', Response 200 {[ "user" := JObj (userData account) ]}).
Proof.
  intros [Hsign _] Hreg Hs Hread Hfresh Htoken Hno_space Hne Hclock.
  apply register_outcome in Hreg as [[_ ?]|Hok]; [lia|].
  destruct Hok as (users0 & password & _ & _ & _ & Hread' & _ & _ & -> & ->).
  rewrite Hread in Hread'. injection Hread' as <-.
  set (account := newUser e (req_body !! "username") (req_body !! "email")
                    (bcrypt_hash password 12 (salt e))) in *.
  exists account. split; [by simplify_map_eq|].
  assert (body
            (Response 201
               (<["message" := JStr "Conta criada com sucesso!"]>
                  (<["token" := JStr (issueToken JWT_SECRET e account)]>
                     {[ "user" := JObj (userData account) ]}))) !! "token"
          = Some (JStr (issueToken JWT_SECRET e account))) as Hissued
    by by simplify_map_eq.
  rewrite Hissued in Htoken. injection Htoken as <-.
  assert (bearer_token (Some ("Bearer " +:+ issueToken JWT_SECRET e account))
          = Some (issueToken JWT_SECRET e account)) as Hbearer
    by by apply (bearer_token_second_word "Bearer").
  unfold handle, authenticateToken. rewrite Hbearer.
  unfold issueToken at 1.
  destruct (payload_lookup account (JNum (now e `div` 1000))
              (JNum (now e `div` 1000 + seven_days)) "") as (Hiat & Hexp & Hid & _).
  rewrite Hsign by done.
  replace (now e' `div` 1000 <? now e `div` 1000 + seven_days) with true
    by (symmetry; apply Z.ltb_lt; unfold seven_days; lia).
  rewrite readUsers_contents, Hid.
  rewrite (find_app_new _ users account); [done| |].
  - intros u Hu.
    destruct (strict_eq (u !! "id") (account !! "id")) eqn:Heq; [|done].
    apply strict_eq_true in Heq. destruct Hfresh.
    unfold account, account_ids in *. rewrite newUser_lookup in Heq. simpl in Heq.
    rewrite <-Heq. by apply (list_elem_of_fmap_2 (λ u : obj, u !! "id")).
  - unfold account. rewrite newUser_lookup. simpl. apply String.eqb_refl.
Qed.

(** The account of [req.user] on a file the server produced. *)
Lemma authenticateToken_tidy e d h req_user :
  reachable JWT_SECRET d →
  authenticateToken JWT_SECRET e d h = inr req_user → tidy req_user.
Proof.
  intros Hreach Hauth.
  apply authenticateToken_user in Hauth as (users & Hread & Hin).
  by eapply (proj1 (list.Forall_forall _ _) (reachable_tidy _ _ Hreach _ Hread)).
Qed.

Lemma tidy_percentage (u : obj) :
  tidy u →
  ∃ used p,
    to_number (u !! "storageUsed") = Some used ∧
    to_number (u !! "storageLimit") = Some (Fin storageLimit_1TB) ∧
    percentage used (Fin storageLimit_1TB) = Fin p ∧ p ≤ 100.
Proof.
  assert (∀ n, n ≤ storageLimit_1TB →
               (200 * n + storageLimit_1TB) `div` (2 * storageLimit_1TB) ≤ 100) as Hdiv.
  { intros n Hn. unfold storageLimit_1TB in *.
    apply Z.lt_succ_r, Z.div_lt_upper_bound; lia. }
  intros [[Hused|(n & Hused & Hn)] Hlimit _]; rewrite Hused, Hlimit.
  - exists (Fin 0), ((200 * 0 + storageLimit_1TB) `div` (2 * storageLimit_1TB)).
    split_and!; [done..|]. apply Hdiv. unfold storageLimit_1TB. lia.
  - exists (Fin n), ((200 * n + storageLimit_1TB) `div` (2 * storageLimit_1TB)).
    split_and!; [done..|]. by apply Hdiv.
Qed.

(** X14.  On a file the server produced, the statistics of an authenticated
    account are always answered with status 200, and the percentage they
    report is a number that is at most 100. *)
Theorem stats_percentage_is_at_most_100
    (e : env) (d : disk) (h : option string) (req_user : obj) :
  reachable JWT_SECRET d →
  authenticateToken JWT_SECRET e d h = inr req_user →
  ∃ st p,
    handle JWT_SECRET e d (GetStats h) = Some (d, Response 200 {[ "stats" := JObj st ]}) ∧
    st !! "storagePercentage" = Some (JNum p) ∧ p ≤ 100.
Proof.
  intros Hreach Hauth. unfold handle. rewrite Hauth.
  destruct (tidy_percentage _ (authenticateToken_tidy _ _ _ _ Hreach Hauth))
    as (used & p & Hused & Hlimit & Hp & Hle).
  unfold stats. rewrite Hused, Hlimit. unfold mbind, option_bind. cbv beta iota.
  rewrite Hp. eexists _, p. split; [done|]. split; [|done].
  unfold with_property. repeat case_match; by simplify_map_eq.
Qed.



(** X16.  The user object of an answer is always an account of the file as
    the request leaves it, without its password property: a registration
    answers the account it appended, a profile update the account it wrote,
    and a login, a verification and a profile read an account they read. *)
Theorem answered_user_is_a_stored_account
    (e : env) (d : disk) (r : request) (d' : disk) (res : response) (u : obj) :
  handle JWT_SECRET e d r = Some (d', res) →
  body res !! "user" = Some (JObj u) →
  ∃ users' account,
    readUsers d' = inr users' ∧ account ∈ users' ∧ u = userData account.
Proof.
  intros Hr Hu. destruct r; simpl in Hr.
  - unfold register, or_500, bcrypt_hash_js, writeUsers in Hr.
    destruct (readUsers d) as [err|users] eqn:Hread; handler_cases;
      unfold error_response in Hu; simplify_map_eq.
    eexists _, _. split_and!; [done| |done]. apply elem_of_app. right. by left.
  - unfold login, or_500, bcrypt_compare_js in Hr.
    destruct (readUsers d) as [err|users] eqn:Hread; handler_cases;
      unfold error_response in Hu; simplify_map_eq.
    eexists _, _. split_and!; [done| |done]. by eapply find_elem_of.
  - destruct (authenticateToken _ _ _ _) as [res'|req_user] eqn:Hauth; simplify_eq.
    + unfold authenticateToken in Hauth. handler_cases;
        unfold error_response in Hu; simplify_map_eq.
    + simpl in Hu. simplify_map_eq.
      apply authenticateToken_user in Hauth as (users & Hread & Hin).
      by eexists _, _.
  - destruct (authenticateToken _ _ _ _) as [res'|req_user] eqn:Hauth; simplify_eq.
    + unfold authenticateToken in Hauth. handler_cases;
        unfold error_response in Hu; simplify_map_eq.
    + simpl in Hu. simplify_map_eq.
      apply authenticateToken_user in Hauth as (users & Hread & Hin).
      by eexists _, _.
  - destruct (authenticateToken _ _ _ _) as [res'|req_user] eqn:Hauth; simplify_eq.
    + unfold authenticateToken in Hauth. handler_cases;
        unfold error_response in Hu; simplify_map_eq.
    + unfold update_profile, or_500, writeUsers in Hr.
      destruct (readUsers d) as [err|users] eqn:Hread; handler_cases;
        unfold error_response in Hu; simplify_map_eq.
      eexists _, _. split_and!; [done| |done].
      eapply list_elem_of_lookup_2, list_lookup_insert_eq. by eapply lookup_lt_Some.
  - destruct (authenticateToken _ _ _ _) as [res'|req_user] eqn:Hauth; simplify_eq.
    + unfold authenticateToken in Hauth. handler_cases;
        unfold error_response in Hu; simplify_map_eq.
    + unfold stats in Hr. handler_cases; simplify_map_eq.
  - destruct (authenticateToken _ _ _ _) as [res'|req_user] eqn:Hauth; simplify_eq.
    + unfold authenticateToken in Hauth. handler_cases;
        unfold error_response in Hu; simplify_map_eq.
    + unfold upload, writeUsers in Hr.
      destruct (readUsers d) as [err|users] eqn:Hread; handler_cases;
        unfold error_response in Hu; simplify_map_eq.
Qed.

End Sessions.

(** *** A file that cannot be read *)

Section Unreadable.
Context `{B : Bcrypt} `{J : Jwt}.
Variable JWT_SECRET : option string.

Lemma authenticateToken_unreadable e d h err :
  readUsers d = inl err →
  ∃ code message,
    authenticateToken JWT_SECRET e d h = inl (error_response code message) ∧
    (code = 401 ∨ code = 500).
Proof.
  intros Hread. unfold authenticateToken. rewrite Hread.
  destruct (bearer_token h); [|by eauto].
  destruct (jwt_verify _ _ _); eauto.
Qed.

(** X17.  While users.json cannot be read or parsed (any failure but a
    missing file), every request is answered 400, 401 or 500 and the file
    is left as it is: a corrupted file is never overwritten. *)
Theorem unreadable_file_is_never_overwritten
    (e : env) (d : disk) (r : request) (err : js_error) :
  readUsers d = inl err →
  ∃ res,
    handle JWT_SECRET e d r = Some (d, res) ∧
    (status res = 400 ∨ status res = 401 ∨ status res = 500).
Proof.
  intros Hread.
  destruct r; simpl;
    try (destruct (authenticateToken_unreadable e d authorization err Hread)
           as (code & message & -> & Hcode);
         eexists; split; [done|]; simpl; lia).
  - unfold register. rewrite Hread. case_match; eexists; (split; [done|]); simpl; lia.
  - unfold login. rewrite Hread. case_match; eexists; (split; [done|]); simpl; lia.
Qed.

End Unreadable.

(** *** parseInt on the decimal of an integer *)

Lemma is_decimal_digit_cases (c : ascii) :
  is_decimal_digit c = true →
  c = "0"%char ∨ c = "1"%char ∨ c = "2"%char ∨ c = "3"%char ∨ c = "4"%char ∨
  c = "5"%char ∨ c = "6"%char ∨ c = "7"%char ∨ c = "8"%char ∨ c = "9"%char.
Proof.
  destruct c as [[] [] [] [] [] [] [] []]; vm_compute; intros Hc;
    try discriminate Hc; tauto.
Qed.

Lemma pretty_N_char_digit (x : N) :
  (x < 10)%N →
  is_decimal_digit (pretty_N_char x) = true ∧
  digit_value (pretty_N_char x) = Some (Z.of_N x).
Proof.
  intros Hx.
  assert (x = 0 ∨ x = 1 ∨ x = 2 ∨ x = 3 ∨ x = 4 ∨ x = 5 ∨ x = 6 ∨ x = 7 ∨ x = 8
          ∨ x = 9)%N as Hcases by lia.
  repeat destruct Hcases as [->|Hcases]; try subst x; by vm_compute.
Qed.

Lemma pretty_N_go_decimal (x : N) (s : string) :
  decimal s = true → decimal (pretty_N_go x s) = true.
Proof.
  revert s. induction (N.lt_wf_0 x) as [x _ IH]; intros s Hs.
  assert (x = 0 ∨ 0 < x)%N as [->|Hx] by lia; [by rewrite pretty_N_go_0|].
  rewrite pretty_N_go_step by done. apply IH; [by apply N.div_lt|].
  simpl. rewrite Hs.
  by destruct (pretty_N_char_digit (x `mod` 10)) as [-> _]; [by apply N.mod_lt|].
Qed.

Lemma pretty_N_go_not_empty (x : N) (s : string) :
  (0 < x)%N ∨ s ≠ "" → pretty_N_go x s ≠ "".
Proof.
  revert s. induction (N.lt_wf_0 x) as [x _ IH]; intros s Hxs.
  assert (x = 0 ∨ 0 < x)%N as [->|Hx] by lia.
  - rewrite pretty_N_go_0. destruct Hxs as [?|?]; [lia|done].
  - rewrite pretty_N_go_step by done. apply IH; [by apply N.div_lt|]. by right.
Qed.

(** Reading the digits of [x] in front of [s] shifts the number read so far
    and adds [x]. *)
Lemma read_digits_pretty_N_go (x : N) :
  (0 < x)%N →
  ∃ k : nat, ∀ s acc,
    read_digits 10 (pretty_N_go x s) acc =
    read_digits 10 s (Some (default 0 acc * 10 ^ Z.of_nat k + Z.of_N x)).
Proof.
  induction (N.lt_wf_0 x) as [x _ IH]; intros Hx.
  destruct (pretty_N_char_digit (x `mod` 10)) as [_ Hdigit]; [by apply N.mod_lt|].
  assert (Z.of_N x = Z.of_N (x `div` 10) * 10 + Z.of_N (x `mod` 10)) as Hsplit.
  { pose proof (N.div_mod x 10 ltac:(done)). lia. }
  assert ((Z.of_N (x `mod` 10) <? 10) = true) as Hlt.
  { apply Z.ltb_lt. pose proof (N.mod_lt x 10 ltac:(done)). lia. }
  destruct (N.eq_0_gt_0_cases (x `div` 10)) as [Hsmall|Hbig].
  - exists 1%nat. intros s acc. rewrite pretty_N_go_step, Hsmall, pretty_N_go_0 by done.
    simpl. rewrite Hdigit, Hlt. f_equal. f_equal. rewrite Hsplit, Hsmall. lia.
  - destruct (IH (x `div` 10)%N) as (k & Hk); [by apply N.div_lt|done|].
    exists (S k). intros s acc. rewrite pretty_N_go_step, Hk by done.
    simpl. rewrite Hdigit, Hlt. f_equal. f_equal.
    rewrite Hsplit, Nat2Z.inj_succ, Z.pow_succ_r by lia. lia.
Qed.

(** On a string of decimal digits, with or without a minus sign in front,
    parseInt skips no white space, finds no [0x] and reads the digits in
    radix 10. *)
Lemma parseInt_string_decimal (c : ascii) (r : string) :
  is_decimal_digit c = true → decimal r = true →
  parseInt_string (String c r) =
    match read_digits 10 (String c r) None with
    | Some n => if exact (1 * n) then Some (Fin (1 * n)) else None
    | None => Some NaN
    end ∧
  parseInt_string (String "-"%char (String c r)) =
    match read_digits 10 (String c r) None with
    | Some n => if exact (-1 * n) then Some (Fin (-1 * n)) else None
    | None => Some NaN
    end.
Proof.
  intros Hc Hr. apply is_decimal_digit_cases in Hc.
  destruct r as [|c2 r2].
  { repeat destruct Hc as [->|Hc]; try subst c; split; reflexivity. }
  simpl in Hr. apply andb_true_iff in Hr as [Hc2 _].
  apply is_decimal_digit_cases in Hc2.
  destruct r2 as [|c3 r3];
    repeat destruct Hc as [->|Hc]; try subst c;
    repeat destruct Hc2 as [->|Hc2]; try subst c2;
    split; reflexivity.
Qed.

Lemma exact_opp (n : Z) : exact (- n) = exact n.
Proof. unfold exact. apply eq_true_iff_eq. rewrite !andb_true_iff, !Z.leb_le. lia. Qed.

Lemma parseInt_pretty_N_go (x : N) :
  (0 < x)%N → exact (Z.of_N x) = true →
  parseInt_string (pretty_N_go x "") = Some (Fin (Z.of_N x)) ∧
  parseInt_string ("-" +:+ pretty_N_go x "") = Some (Fin (- Z.of_N x)).
Proof.
  intros Hx Hexact.
  pose proof (pretty_N_go_decimal x "" eq_refl) as Hdecimal.
  pose proof (pretty_N_go_not_empty x "" (or_introl Hx)) as Hne.
  destruct (read_digits_pretty_N_go x Hx) as (k & Hread).
  specialize (Hread "" None). simpl in Hread.
  destruct (pretty_N_go x "") as [|c r]; [done|].
  simpl in Hdecimal. apply andb_true_iff in Hdecimal as [Hc Hr].
  destruct (parseInt_string_decimal c r Hc Hr) as [-> Hminus].
  change ("-" +:+ String c r) with (String "-"%char (String c r)).
  rewrite Hminus, Hread.
  replace (1 * (0 * 10 ^ Z.of_nat k + Z.of_N x)) with (Z.of_N x) by lia.
  replace (-1 * (0 * 10 ^ Z.of_nat k + Z.of_N x)) with (- Z.of_N x) by lia.
  by rewrite exact_opp, Hexact.
Qed.

(** parseInt reads the decimal of an integer within 2^53 back as that
    integer. *)
Lemma parseInt_pretty (n : Z) :
  exact n = true → parseInt (JStr (pretty n)) = Some (Fin n).
Proof.
  destruct n as [|p|p]; [reflexivity|..]; intros Hexact; simpl;
    unfold pretty, pretty_Z, pretty_positive, pretty, pretty_N;
    destruct (decide (N.pos p = 0%N)) as [|_]; try done.
  - by destruct (parseInt_pretty_N_go (N.pos p)).
  - destruct (parseInt_pretty_N_go (N.pos p)) as [_ Hminus]; [done| |done].
    change (Z.of_N (N.pos p)) with (- Z.neg p). by rewrite exact_opp.
Qed.

Lemma pretty_Z_truthy (n : Z) : truthy (Some (JStr (pretty n))) = true.
Proof.
  simpl. apply negb_true_iff, String.eqb_neq.
  destruct n as [|p|p]; [done|..];
    unfold pretty, pretty_Z, pretty_positive, pretty, pretty_N;
    destruct (decide (N.pos p = 0%N)) as [|_]; try done.
  by apply pretty_N_go_not_empty; left.
Qed.

(** X18.  An upload whose size is sent as the decimal string of an integer
    other than zero that a double holds exactly (within 2^53) is handled
    exactly as the upload of that number: same file, same answer.  Zero
    differs: the number 0 is falsy and is refused by the validation of line
    240. *)
Theorem upload_reads_decimal_strings
    (e : env) (d : disk) (req_user req_body : obj) (n : Z) :
  n ≠ 0 →
  exact n = true →
  upload e d req_user (<["size" := JStr (pretty n)]> req_body) =
    upload e d req_user (<["size" := JNum n]> req_body) ∧
  upload e d req_user (<["size" := JNum 0]> req_body) =
    Some (d, error_response 400 "Nome do arquivo e tamanho são obrigatórios").
Proof.
  intros Hn Hexact. split.
  - unfold upload.
    rewrite !lookup_insert_eq, !lookup_insert_ne by done.
    rewrite pretty_Z_truthy. unfold parseInt_property.
    rewrite parseInt_pretty by done. simpl parseInt. rewrite Hexact.
    assert (truthy (Some (JNum n)) = true) as ->; [|done].
    simpl. by apply negb_true_iff, Z.eqb_neq.
  - unfold upload. rewrite lookup_insert_eq. simpl. by rewrite orb_true_r.
Qed.

(** *** The further properties on the example *)

Lemma demo_bcrypt_compare_contract : bcrypt_compare_contract demo_bcrypt.
Proof. intros data rounds salt. apply String.eqb_refl. Qed.

(** The middleware accepts the token of ana's registration. *)
Example ana_authenticated :
  authenticateToken (J := demo_jwt) None clock0 ana_file ana_authorization
  = inr ana_account.
Proof. reflexivity. Qed.

(** A login with a wrong password is answered 401 and writes nothing. *)
Lemma only_successful_writes_witness :
  (status (error_response 401 "Credenciais inválidas") ≠ 200 →
   status (error_response 401 "Credenciais inválidas") ≠ 201 →
   ana_file = ana_file) ∧
  (read_only (PostLogin ana_wrong_password_request) = true → ana_file = ana_file).
Proof.
  refine (only_successful_writes (B := demo_bcrypt) (J := demo_jwt) None clock0
            ana_file (PostLogin ana_wrong_password_request) ana_file
            (error_response 401 "Credenciais inválidas") _).
  reflexivity.
Defined.

(** ana renames herself: her account stays first in the file and keeps
    its id and its password hash. *)
Lemma accounts_keep_their_place_and_fixed_fields_witness :
  ∃ users' u',
    readUsers (update_profile clock0 ana_file ana_account rename_to_eve).1 = inr users' ∧
    users' !! 0%nat = Some u' ∧
    u' !! "id" = ana_account !! "id" ∧ u' !! "password" = ana_account !! "password".
Proof.
  destruct (accounts_keep_their_place_and_fixed_fields (B := demo_bcrypt) (J := demo_jwt)
              None clock0 ana_file (PutProfile ana_authorization rename_to_eve)
              (update_profile clock0 ana_file ana_account rename_to_eve).1
              (update_profile clock0 ana_file ana_account rename_to_eve).2
              [ana_account] 0%nat ana_account)
    as (users' & u' & Hread & Hu & Hkeys).
  - unfold handle. rewrite ana_authenticated. reflexivity.
  - reflexivity.
  - reflexivity.
  - exists users', u'. split; [exact Hread|]. split; [exact Hu|].
    split; apply Hkeys; not_a_key.
Defined.

(** bob's registration appends his account to ana's. *)
Lemma accounts_are_only_added_witness :
  ∃ users',
    readUsers bob_registered_later.1 = inr users' ∧
    (status bob_registered_later.2 = 201 →
       ∃ req_body user,
         PostRegister bob_request = PostRegister req_body ∧
         users' = [ana_account] ++ [user]) ∧
    (status bob_registered_later.2 ≠ 201 → length users' = length [ana_account]).
Proof.
  refine (accounts_are_only_added (B := demo_bcrypt) (J := demo_jwt) None
            clock_second_later ana_file (PostRegister bob_request)
            bob_registered_later.1 bob_registered_later.2 [ana_account] _ _);
    reflexivity.
Defined.

(** bob's registration leaves ana's account as it was. *)
Lemma requests_change_only_the_callers_account_witness :
  ∃ users',
    readUsers bob_registered_later.1 = inr users' ∧
    (users' !! 0%nat = Some ana_account ∨
     ∃ h req_user,
       authorization_of (PostRegister bob_request) = Some h ∧
       authenticateToken (J := demo_jwt) None clock_second_later ana_file h
         = inr req_user ∧
       ana_account !! "id" = req_user !! "id").
Proof.
  refine (requests_change_only_the_callers_account (B := demo_bcrypt) (J := demo_jwt)
            None clock_second_later ana_file (PostRegister bob_request)
            bob_registered_later.1 bob_registered_later.2 [ana_account] 0%nat
            ana_account _ _ _);
    reflexivity.
Defined.

(** bob registers one second after ana: the two ids differ. *)
Lemma fresh_clock_keeps_ids_unique_witness :
  ∃ users', readUsers bob_registered_later.1 = inr users' ∧ NoDup (account_ids users').
Proof.
  refine (fresh_clock_keeps_ids_unique (B := demo_bcrypt) (J := demo_jwt) None
            clock_second_later ana_file (PostRegister bob_request)
            bob_registered_later.1 bob_registered_later.2 [ana_account] _ _ _ _).
  - reflexivity.
  - reflexivity.
  - apply NoDup_singleton.
  - intros Hin. apply list_elem_of_singleton in Hin.
    vm_compute in Hin. discriminate Hin.
Defined.

(** A profile read with no Authorization header is turned away by the
    middleware. *)
Lemma protected_routes_need_a_valid_token_witness :
  (∃ token decoded users account,
     bearer_token None = Some token ∧
     jwt_verify (Jwt := demo_jwt) token (secret None) (now clock0 `div` 1000)
       = inr decoded ∧
     readUsers ana_file = inr users ∧ account ∈ users ∧
     account !! "id" = decoded !! "userId") ∨
  (ana_file = ana_file ∧
   ∃ code message,
     error_response 401 "Token não fornecido" = error_response code message ∧
     (code = 401 ∨ code = 500)).
Proof.
  refine (protected_routes_need_a_valid_token (B := demo_bcrypt) (J := demo_jwt) None
            clock0 ana_file (GetProfile None) None ana_file
            (error_response 401 "Token não fornecido") _ _);
    reflexivity.
Defined.

(** ana's profile update is answered with one of the six statuses. *)
Lemma handle_never_answers_404_witness :
  status (update_profile clock0 ana_file ana_account rename_to_eve).2
  ∈ [200; 201; 400; 401; 409; 500].
Proof.
  refine (handle_never_answers_404 (B := demo_bcrypt) (J := demo_jwt) None clock0
            ana_file (PutProfile ana_authorization rename_to_eve)
            (update_profile clock0 ana_file ana_account rename_to_eve).1
            (update_profile clock0 ana_file ana_account rename_to_eve).2 _).
  unfold handle. rewrite ana_authenticated. reflexivity.
Defined.

(** ana renames herself with the token of her registration. *)
Lemma profile_update_reaches_the_caller_witness :
  ∃ users i,
    readUsers ana_file = inr users ∧ users !! i = Some ana_account ∧
    handle (B := demo_bcrypt) (J := demo_jwt) None clock0 ana_file
      (PutProfile ana_authorization rename_to_eve) =
      Some (Contents (Users (<[i := apply_updates rename_to_eve ana_account]> users)),
            Response 200
              (<["message" := JStr "Perfil atualizado com sucesso!"]>
                 {[ "user" := JObj (userData (apply_updates rename_to_eve ana_account)) ]})).
Proof.
  refine (profile_update_reaches_the_caller (B := demo_bcrypt) (J := demo_jwt) None
            clock0 ana_file ana_authorization rename_to_eve ana_account _ _).
  - exact ana_authenticated.
  - reflexivity.
Defined.

(** ana logs in with her password. *)
Lemma login_succeeds_only_with_the_stored_hash_witness :
  ana_file = ana_file ∧
  ∃ users user password hash,
    readUsers ana_file = inr users ∧
    find (λ u : obj, strict_eq (u !! "email") (ana_login_request !! "email")) users
      = Some user ∧
    ana_login_request !! "password" = Some (JStr password) ∧
    user !! "password" = Some (JStr hash) ∧
    bcrypt_compare (Bcrypt := demo_bcrypt) password hash = true ∧
    Response 200
      (<["message" := JStr "Login bem-sucedido!"]>
         (<["token" := JStr (issueToken (J := demo_jwt) None clock_second_later ana_account)]>
            {[ "user" := JObj (userData ana_account) ]})) =
    Response 200
      (<["message" := JStr "Login bem-sucedido!"]>
         (<["token" := JStr (issueToken (J := demo_jwt) None clock_second_later user)]>
            {[ "user" := JObj (userData user) ]})).
Proof.
  refine (login_succeeds_only_with_the_stored_hash (B := demo_bcrypt) (J := demo_jwt)
            None clock_second_later ana_file ana_login_request ana_file
            (Response 200
               (<["message" := JStr "Login bem-sucedido!"]>
                  (<["token" :=
                       JStr (issueToken (J := demo_jwt) None clock_second_later
                               ana_account)]>
                     {[ "user" := JObj (userData ana_account) ]}))) _ _);
    reflexivity.
Defined.

(** ana registers and logs in a second later. *)
Lemma registered_account_can_log_in_witness :
  ∃ account,
    body ana_registered.2 !! "user" = Some (JObj (userData account)) ∧
    login (B := demo_bcrypt) (J := demo_jwt) None clock_second_later ana_registered.1
      ana_login_request =
      (ana_registered.1,
       Response 200
         (<["message" := JStr "Login bem-sucedido!"]>
            (<["token" := JStr (issueToken (J := demo_jwt) None clock_second_later account)]>
               {[ "user" := JObj (userData account) ]}))).
Proof.
  refine (registered_account_can_log_in (B := demo_bcrypt) (J := demo_jwt) None
            clock0 clock_second_later no_file ana_request ana_login_request
            ana_registered.1 ana_registered.2 "ana@x.com" _ _ _ _ _ _).
  - exact demo_bcrypt_compare_contract.
  - reflexivity.
  - reflexivity.
  - reflexivity.
  - reflexivity.
  - reflexivity.
Defined.

(** ana reads her profile a second after her registration, with the
    token it answered. *)
Lemma registration_token_opens_the_profile_witness :
  ∃ account,
    body ana_registered.2 !! "user" = Some (JObj (userData account)) ∧
    handle (B := demo_bcrypt) (J := demo_jwt) None clock_second_later ana_registered.1
      (GetProfile
         (Some ("Bearer " +:+ issueToken (J := demo_jwt) None clock0 ana_account))) =
      Some (ana_registered.1, Response 200 {[ "user" := JObj (userData account) ]}).
Proof.
  refine (registration_token_opens_the_profile (B := demo_bcrypt) (J := demo_jwt) None
            clock0 clock_second_later no_file ana_request ana_registered.1
            ana_registered.2 []
            (issueToken (J := demo_jwt) None clock0 ana_account) _ _ _ _ _ _ _ _ _).
  - exact demo_jwt_contract.
  - reflexivity.
  - reflexivity.
  - reflexivity.
  - apply not_elem_of_nil.
  - reflexivity.
  - vm_compute. reflexivity.
  - vm_compute. discriminate.
  - vm_compute. reflexivity.
Defined.

(** ana's statistics right after her registration. *)
Lemma stats_percentage_is_at_most_100_witness :
  ∃ st p,
    handle (B := demo_bcrypt) (J := demo_jwt) None clock0 ana_file
      (GetStats ana_authorization) =
      Some (ana_file, Response 200 {[ "stats" := JObj st ]}) ∧
    st !! "storagePercentage" = Some (JNum p) ∧ p ≤ 100.
Proof.
  refine (stats_percentage_is_at_most_100 (B := demo_bcrypt) (J := demo_jwt) None
            clock0 ana_file ana_authorization ana_account _ _).
  - exact ana_file_reachable.
  - exact ana_authenticated.
Defined.


(** The account that ana's registration answers is the one in the file. *)
Lemma answered_user_is_a_stored_account_witness :
  ∃ users' account,
    readUsers ana_registered.1 = inr users' ∧ account ∈ users' ∧
    userData ana_account = userData account.
Proof.
  refine (answered_user_is_a_stored_account (B := demo_bcrypt) (J := demo_jwt) None
            clock0 no_file (PostRegister ana_request) ana_registered.1 ana_registered.2
            (userData ana_account) _ _);
    reflexivity.
Defined.

(** A header that says Token instead of Bearer. *)
Lemma bearer_token_ignores_the_scheme_witness :
  bearer_token (Some ("Token" +:+ " " +:+ "abc.def")) = Some "abc.def" ∧
  ∀ rest,
    bearer_token (Some ("Token" +:+ " " +:+ "abc.def" +:+ " " +:+ rest)) = Some "abc.def".
Proof.
  refine (bearer_token_ignores_the_scheme "Token" "abc.def" _ _ _);
    [reflexivity|reflexivity|discriminate].
Defined.

(** A login while users.json is not JSON. *)
Lemma unreadable_file_is_never_overwritten_witness :
  ∃ res,
    handle (B := demo_bcrypt) (J := demo_jwt) None clock0 broken_file
      (PostLogin ana_login_request) = Some (broken_file, res) ∧
    (status res = 400 ∨ status res = 401 ∨ status res = 500).
Proof.
  refine (unreadable_file_is_never_overwritten (B := demo_bcrypt) (J := demo_jwt) None
            clock0 broken_file (PostLogin ana_login_request) SyntaxError _).
  reflexivity.
Defined.

(** ana's counter right after her registration. *)
Lemma storageUsed_stays_within_limit_witness :
  ana_account !! "storageUsed" = Some JNull ∨
  ∃ n, ana_account !! "storageUsed" = Some (JNum n) ∧ n ≤ 1099511627776.
Proof.
  refine (storageUsed_stays_within_limit (B := demo_bcrypt) (J := demo_jwt) None
            ana_file [ana_account] ana_account _ _ _).
  - exact ana_file_reachable.
  - reflexivity.
  - apply list_elem_of_here.
Defined.

(** A size of 2048 bytes, as a string and as a number. *)
Lemma upload_reads_decimal_strings_witness :
  upload clock0 ana_file ana_account
    (<["size" := JStr (pretty 2048)]> {[ "filename" := JStr "a.txt" ]}) =
    upload clock0 ana_file ana_account
      (<["size" := JNum 2048]> {[ "filename" := JStr "a.txt" ]}) ∧
  upload clock0 ana_file ana_account
    (<["size" := JNum 0]> {[ "filename" := JStr "a.txt" ]}) =
    Some (ana_file, error_response 400 "Nome do arquivo e tamanho são obrigatórios").
Proof.
  refine (upload_reads_decimal_strings clock0 ana_file ana_account
            {[ "filename" := JStr "a.txt" ]} 2048 _ _);
    [discriminate|reflexivity].
Defined.
